(** * The store of node-active-record ([src/orm/orm-base.js])

    A shallow embedding of the [Store] class: the model registry
    ([registerModel]), the resolution of two-hop relationships
    ([getThroughRelationshipData]) and the batch operations
    ([saveAll], [deleteAll]).  Methods are programs of a small state and
    exception monad over the store; what the query engine and the model
    instances are asked to do is recorded in a trace. *)

From stdpp Require Import gmap strings list pretty.

Set Warnings "-register-all".
Open Scope string_scope.

(** ** JavaScript values *)

(** The values the store handles.  A plain object is the list of its own
    enumerable properties (the first binding of a name is its value).  A
    function value carries its identity, its [name], whether its [prototype]
    is an instance of the store's [Model] class (that class is attached to
    the store outside this file) and its static [model_definition].  A model
    instance carries its identity and its constructor.  A [VHandle] is a
    transaction handle of the query engine.  A [VBuiltin] is a built-in
    object of the language, named by its path: [Object.prototype] and the
    members that every object inherits from it. *)
Inductive JSVal : Type :=
| VUndefined
| VNull
| VBool (b : bool)
| VNum (n : Z)
| VNaN
| VStr (s : string)
| VObj (props : list (string * JSVal))
| VArr (elems : list JSVal)
| VFun (id : nat) (name : string) (extendsModel : bool) (model_definition : JSVal)
| VInst (id : nat) (ctor : JSVal)
| VHandle (id : nat)
| VBuiltin (path : string).

Inductive InvalidReason : Type :=
| NotStoreModel (model : JSVal)
| DefinitionNotObject
| TableRequired
| AttributesEmpty.

Definition reason_text (r : InvalidReason) : string :=
  match r with
  | NotStoreModel _ => "Registered model not instance of store model: "
  | DefinitionNotObject => "model_definition must be of type object"
  | TableRequired => "model_definition.table required"
  | AttributesEmpty => "model_definition.attributes must be non empty object"
  end.

Inductive PersistOp : Type := Save | Delete.

Inductive Error : Type :=
| TypeError (msg : string)
| ReferenceError (ident : string)
| InvalidModelError (r : InvalidReason)
| PersistFailure (op : PersistOp) (instance : nat).

Inductive Completion (A : Type) : Type :=
| Normal (a : A)
| Throw (e : Error).
Arguments Normal {A} a.
Arguments Throw {A} e.

(** [!v] is [negb (truthy v)]. *)
Definition truthy (v : JSVal) : bool :=
  match v with
  | VUndefined | VNull | VNaN => false
  | VBool b => b
  | VNum n => negb (n =? 0)%Z
  | VStr s => negb (String.eqb s "")
  | _ => true
  end.

Definition nullish (v : JSVal) : bool :=
  match v with
  | VUndefined | VNull => true
  | _ => false
  end.

Fixpoint assoc (k : string) (props : list (string * JSVal)) : option JSVal :=
  match props with
  | [] => None
  | (k', v) :: rest => if String.eqb k k' then Some v else assoc k rest
  end.

Definition index_keys (n : nat) : list string := pretty <$> seq 0 n.

Definition array_entries (elems : list JSVal) : list (string * JSVal) :=
  zip (index_keys (length elems)) elems.

(** [typeof v === 'function'] *)
Definition typeof_function (v : JSVal) : bool :=
  match v with
  | VFun _ _ _ _ => true
  | VBuiltin path => negb (String.eqb path "Object.prototype")
  | _ => false
  end.

(** [typeof v] is ['object'] or ['function'], [null] apart. *)
Definition is_object (v : JSVal) : bool :=
  match v with
  | VObj _ | VArr _ | VFun _ _ _ _ | VInst _ _ | VHandle _ | VBuiltin _ => true
  | _ => false
  end.

(** The characters of a string, under their indices. *)
Definition string_entries (s : string) : list (string * JSVal) :=
  zip (index_keys (String.length s))
      ((fun c => VStr (String c EmptyString)) <$> String.list_ascii_of_string s).

(** The members of [Object.prototype], which every object inherits. *)
Definition object_prototype_members : list string :=
  ["constructor"; "hasOwnProperty"; "isPrototypeOf"; "propertyIsEnumerable";
   "toLocaleString"; "toString"; "valueOf"; "__defineGetter__";
   "__defineSetter__"; "__lookupGetter__"; "__lookupSetter__"].

(** The methods that every function inherits from [Function.prototype]. *)
Definition function_prototype_members : list string :=
  ["apply"; "bind"; "call"].

(** What a read of [k] finds in [Object.prototype]: one of its members, the
    prototype itself for the accessor [__proto__] (the prototypes of arrays,
    strings and functions are not told apart from [Object.prototype]), and
    [undefined] otherwise. *)
Definition object_prototype_member (k : string) : JSVal :=
  if String.eqb k "__proto__" then VBuiltin "Object.prototype"
  else if existsb (String.eqb k) object_prototype_members then
    VBuiltin ("Object.prototype." +:+ k)
  else VUndefined.

(** [v[k]] and [v.k].  Reading a property of [undefined] or [null] throws;
    an own property comes first, then the members inherited from
    [Object.prototype] (for a function, after the methods of
    [Function.prototype]); any other property reads as [undefined].  A
    function has the own properties that the value carries, and its
    [prototype]. *)
Definition get_prop (v : JSVal) (k : string) : Completion JSVal :=
  match v with
  | VUndefined | VNull =>
      Throw (TypeError ("Cannot read property '" +:+ k +:+ "'"))
  | VObj props => Normal (default (object_prototype_member k) (assoc k props))
  | VArr elems =>
      if String.eqb k "length" then Normal (VNum (Z.of_nat (length elems)))
      else Normal (default (object_prototype_member k)
                     (assoc k (array_entries elems)))
  | VStr s =>
      if String.eqb k "length" then Normal (VNum (Z.of_nat (String.length s)))
      else Normal (default (object_prototype_member k)
                     (assoc k (string_entries s)))
  | VFun _ name _ md =>
      if String.eqb k "name" then Normal (VStr name)
      else if String.eqb k "model_definition" then Normal md
      else if String.eqb k "prototype" then Normal (VBuiltin (name +:+ ".prototype"))
      else if existsb (String.eqb k) function_prototype_members then
        Normal (VBuiltin ("Function.prototype." +:+ k))
      else Normal (object_prototype_member k)
  | VInst _ ctor =>
      if String.eqb k "constructor" then Normal ctor
      else Normal (object_prototype_member k)
  | _ => Normal (object_prototype_member k)
  end.

(** The value of a property that is known to be readable. *)
Definition prop (v : JSVal) (k : string) : JSVal :=
  match get_prop v k with
  | Normal x => x
  | Throw _ => VUndefined
  end.

(** [Object.keys(v)]. *)
Definition object_keys (v : JSVal) : Completion (list string) :=
  match v with
  | VUndefined | VNull =>
      Throw (TypeError "Cannot convert undefined or null to object")
  | VObj props => Normal (props.*1)
  | VArr elems => Normal (index_keys (length elems))
  | VStr s => Normal (index_keys (String.length s))
  | _ => Normal []
  end.

(** [keys.indexOf(k) !== -1]. *)
Definition has_key (k : string) (keys : list string) : bool :=
  existsb (String.eqb k) keys.

(** A parameter declared with the default [= null]: the default applies when
    the argument is omitted or [undefined]. *)
Definition default_null (v : JSVal) : JSVal :=
  match v with
  | VUndefined => VNull
  | _ => v
  end.

(** Modelled from the spec: [./constants] is not part of the sources; the
    spec gives the relationship kinds the tags [belongsTo], [hasMany],
    [hasOne] and [hasManyThrough]. *)
Definition BELONGS_TO : string := "belongsTo".
Definition HAS_MANY : string := "hasMany".
Definition HAS_ONE : string := "hasOne".
Definition HAS_MANY_THROUGH : string := "hasManyThrough".

(** One possible [isObject] helper, [v !== null && typeof v === 'object']:
    used to run the store on concrete inputs. *)
Definition isObject_typeof (v : JSVal) : bool :=
  match v with
  | VObj _ | VArr _ | VInst _ _ | VHandle _ => true
  | VBuiltin path => String.eqb path "Object.prototype"
  | _ => false
  end.

(** ** The store and its monad *)

Inductive Event : Type :=
| EvRegistryLookup (key : string)
| EvScan (relType : string)
| EvTransaction (handle : nat)
| EvCommit (handle : nat)
| EvPersist (op : PersistOp) (instance : nat) (transaction : JSVal).

(** The registry object ([this.modelRegistry], created as [{}]): its own
    entries and its prototype, [None] as long as the prototype is
    [Object.prototype].  [r !! key] is the own entry under [key]. *)
Record Registry : Type := mkRegistry {
  entries : gmap string JSVal;
  prototype : option JSVal
}.

#[global] Instance registry_lookup : Lookup string JSVal Registry :=
  fun key r => entries r !! key.

#[global] Instance registry_empty : Empty Registry := mkRegistry ∅ None.

#[global] Instance registry_insert : Insert string JSVal Registry :=
  fun key v r => mkRegistry (<[key := v]> (entries r)) (prototype r).

(** What a read of [key] finds in the prototype chain of the registry: the
    members of [Object.prototype], or, once the prototype has been replaced,
    the properties of the new prototype ([__proto__] reads the prototype
    itself); nothing when the prototype is [null]. *)
Definition inherited (r : Registry) (key : string) : JSVal :=
  match prototype r with
  | None => object_prototype_member key
  | Some p =>
      if nullish p then VUndefined
      else if String.eqb key "__proto__" then
        match p with
        | VObj props => default p (assoc key props)
        | _ => p
        end
      else prop p key
  end.

(** [registry[key]]: the own entry, or else what is inherited. *)
Definition registry_read (r : Registry) (key : string) : JSVal :=
  match r !! key with
  | Some v => v
  | None => inherited r key
  end.

(** Whether the accessor [__proto__] of [Object.prototype] is within reach
    of the registry. *)
Definition has_proto_accessor (r : Registry) : bool :=
  match prototype r with
  | None => true
  | Some (VObj props) =>
      match assoc "__proto__" props with
      | Some _ => false
      | None => true
      end
  | Some p => negb (nullish p)
  end.

(** [registry[key] = v]: an own entry is written, except that an assignment
    to [__proto__], while there is no own entry of that name, runs the
    setter of [Object.prototype]: it replaces the prototype when [v] is an
    object or [null], does nothing otherwise, and makes no own entry. *)
Definition assign (key : string) (v : JSVal) (r : Registry) : Registry :=
  if String.eqb key "__proto__" then
    match r !! key with
    | Some _ => <[key := v]> r
    | None =>
        if has_proto_accessor r then
          match v with
          | VNull => mkRegistry (entries r) (Some VNull)
          | _ => if is_object v then mkRegistry (entries r) (Some v) else r
          end
        else <[key := v]> r
    end
  else <[key := v]> r.

(** Whether an assignment to [key] is refused: there is no own entry, and
    the prototype of the registry, once a function has taken the place of
    [Object.prototype], holds [key] read-only, as every function holds its
    [length], [name] and [prototype].  Every member of [Object.prototype]
    other than the accessor [__proto__] is writable, so nothing is refused
    under the original prototype.  (What else a prototype put in its place
    holds read-only, the value does not tell.) *)
Definition read_only_inherited (r : Registry) (key : string) : bool :=
  match r !! key, prototype r with
  | None, Some (VFun _ _ _ _) =>
      existsb (String.eqb key) ["length"; "name"; "prototype"]
  | _, _ => false
  end.

(** The store ([this.modelRegistry]) together with the next handle the
    query engine hands out and the trace of what has been observed. *)
Record World : Type := mkWorld {
  modelRegistry : Registry;
  next_handle : nat;
  trace : list Event
}.

Definition M (A : Type) : Type := World -> Completion A * World.

Definition ret {A} (a : A) : M A := fun w => (Normal a, w).

Definition throw {A} (e : Error) : M A := fun w => (Throw e, w).

Definition bind {A B} (m : M A) (f : A -> M B) : M B :=
  fun w =>
    match m w with
    | (Normal a, w') => f a w'
    | (Throw e, w') => (Throw e, w')
    end.

Definition lift {A} (c : Completion A) : M A := fun w => (c, w).

Declare Scope js_scope.
Delimit Scope js_scope with js.
Notation "'let!' x ':=' m 'in' k" := (bind m (fun x => k))
  (at level 10, x name, m at level 100, k at level 200) : js_scope.
Notation "'do!' m 'in' k" := (bind m (fun _ => k))
  (at level 10, m at level 100, k at level 200) : js_scope.
Open Scope js_scope.

(** The world after the events [es] have been observed. *)
Definition emit (es : list Event) (w : World) : World :=
  mkWorld (modelRegistry w) (next_handle w) (trace w ++ es).

Definition log (e : Event) : M unit :=
  fun w => (Normal tt, emit [e] w).

(** [this.modelRegistry[key]]. *)
Definition registry_get (key : string) : M JSVal :=
  fun w =>
    (Normal (registry_read (modelRegistry w) key),
     emit [EvRegistryLookup key] w).

(** [this.modelRegistry[key] = v], in the strict mode of a class body: an
    assignment that is refused throws. *)
Definition registry_set (key : string) (v : JSVal) : M unit :=
  fun w =>
    if read_only_inherited (modelRegistry w) key then
      (Throw (TypeError ("Cannot assign to read only property '" +:+ key +:+ "'")),
       w)
    else
      (Normal tt,
       mkWorld (assign key v (modelRegistry w)) (next_handle w) (trace w)).

(** [relTypes.map(callback)] where the callback updates [result]. *)
Fixpoint for_each {A} (callback : A -> string -> M A) (relTypes : list string)
    (result : A) : M A :=
  match relTypes with
  | [] => ret result
  | relType :: rest =>
      let! result' := callback result relType in
      for_each callback rest result'
  end.

(** The [result] object of [getThroughRelationshipData]; the property
    [relationshipCombination] is [undefined] until it is assigned. *)
Record ThroughData : Type := mkThroughData {
  throughRelationshipType : JSVal;
  throughModel : JSVal;
  throughKey : JSVal;
  targetRelationshipType : JSVal;
  targetModel : JSVal;
  targetKey : JSVal;
  relationshipCombination : JSVal
}.

(** What [getThroughRelationshipData] returns: a description (a string) or
    the [result] object. *)
Inductive Resolution : Type :=
| Failure (description : string)
| Resolved (result : ThroughData).

Definition initial_result : ThroughData :=
  mkThroughData VNull VNull VNull VNull VNull VNull VUndefined.

Definition set_through (relType : string) (model key : JSVal) (r : ThroughData)
    : ThroughData :=
  mkThroughData (VStr relType) model key
    (targetRelationshipType r) (targetModel r) (targetKey r)
    (relationshipCombination r).

Definition set_target (relType : string) (model key : JSVal) (r : ThroughData)
    : ThroughData :=
  mkThroughData (throughRelationshipType r) (throughModel r) (throughKey r)
    (VStr relType) model key (relationshipCombination r).

Definition set_throughModel (model : JSVal) (r : ThroughData) : ThroughData :=
  mkThroughData (throughRelationshipType r) model (throughKey r)
    (targetRelationshipType r) (targetModel r) (targetKey r)
    (relationshipCombination r).

Definition set_targetModel (model : JSVal) (r : ThroughData) : ThroughData :=
  mkThroughData (throughRelationshipType r) (throughModel r) (throughKey r)
    (targetRelationshipType r) model (targetKey r)
    (relationshipCombination r).

Definition set_relationshipCombination (c : JSVal) (r : ThroughData) : ThroughData :=
  mkThroughData (throughRelationshipType r) (throughModel r) (throughKey r)
    (targetRelationshipType r) (targetModel r) (targetKey r) c.

(** A value whose conversion to a primitive throws: an object whose
    [toString] (own, or else inherited) is not a function and which has no
    [valueOf] of its own that is one (the inherited [valueOf] returns the
    object itself), or an array, converted by joining its elements, that
    holds such a value. *)
Fixpoint unconvertible (v : JSVal) : bool :=
  match v with
  | VObj props =>
      negb (typeof_function
              (default (object_prototype_member "toString")
                 (assoc "toString" props)))
      && negb (typeof_function (default VUndefined (assoc "valueOf" props)))
  | VArr elems => existsb unconvertible elems
  | _ => false
  end.


(** The names bound in the module: its imports, the class and the two
    functions declared after it.  The methods of [Store] are reached
    through [this] only. *)
Definition module_bindings : list string :=
  ["isObject"; "BELONGS_TO"; "HAS_MANY"; "HAS_ONE"; "HAS_MANY_THROUGH";
   "InvalidModelError"; "Store"; "_saveAll"; "_deleteAll"].

(** Evaluating the identifier [x]: a name that is not bound throws. *)
Definition resolve_identifier {A} (x : string) (k : M A) : M A :=
  if existsb (String.eqb x) module_bindings then k
  else throw (ReferenceError x).

(** [typeof model === 'function' && model.prototype instanceof this.Model] *)
Definition isModel (model : JSVal) : bool :=
  match model with
  | VFun _ _ extendsModel _ => extendsModel
  | _ => false
  end.

Section Store.

(** [isObject] of [../helpers] is not part of the sources: it is a
    parameter, of which the spec says that it holds of the non-null
    structured objects. *)
Variable isObject : JSVal -> bool.

(** What the host prints for an object, an array or a function (the result
    of its conversion, when it returns), and for a number from [1e21] on
    (the exponent notation). *)
Variable objectToString : JSVal -> string.

(** Whether the [save] or [delete] of an instance, run against a
    transaction, resolves ([true]) or rejects. *)
Variable persists : PersistOp -> nat -> JSVal -> bool.

(** The string of a value, in a template literal, as a property key or as
    an operand of [+] next to a string. *)
Definition to_string (v : JSVal) : string :=
  match v with
  | VUndefined => "undefined"
  | VNull => "null"
  | VBool b => if b then "true" else "false"
  | VNum n => if (Z.abs n <? 10 ^ 21)%Z then pretty n else objectToString v
  | VNaN => "NaN"
  | VStr s => s
  | _ => objectToString v
  end.

(** The conversion of [v] to a string for [+]: it throws for a value that
    is [unconvertible]. *)
Definition convert (v : JSVal) : M string :=
  if unconvertible v then
    throw (TypeError "Cannot convert object to primitive value")
  else ret (to_string v).

Definition registerModel (model : JSVal) : M unit :=
  if negb (isModel model) then
    let! text := convert model in
    throw (InvalidModelError (NotStoreModel model))
  else
    let! model_definition := lift (get_prop model "model_definition") in
    if negb (isObject model_definition) then
      throw (InvalidModelError DefinitionNotObject)
    else
      let! table := lift (get_prop model_definition "table") in
      if negb (truthy table) then
        throw (InvalidModelError TableRequired)
      else
        let! attributes := lift (get_prop model_definition "attributes") in
        if negb (isObject attributes) then
          throw (InvalidModelError AttributesEmpty)
        else
          let! keys := lift (object_keys attributes) in
          if Nat.eqb (length keys) 0 then
            throw (InvalidModelError AttributesEmpty)
          else
            let! name := lift (get_prop model "name") in
            registry_set (to_string name) model.

(** The callback of the first [relTypes.map]. *)
Definition scan_through (model_definition : JSVal) (throughRelation : string)
    (result : ThroughData) (relType : string) : M ThroughData :=
  do! log (EvScan relType) in
  let! rels := lift (get_prop model_definition relType) in
  if isObject rels then
    let! relKeys := lift (object_keys rels) in
    if has_key throughRelation relKeys then
      let! descriptor := lift (get_prop rels throughRelation) in
      let! model := lift (get_prop descriptor "model") in
      let! key := lift (get_prop descriptor "key") in
      ret (set_through relType model key result)
    else ret result
  else ret result.

(** The callback of the second [relTypes.map]. *)
Definition scan_target (target_model_definition : JSVal) (targetRelation : string)
    (result : ThroughData) (relType : string) : M ThroughData :=
  do! log (EvScan relType) in
  let! rels := lift (get_prop target_model_definition relType) in
  if isObject rels then
    let! relKeys := lift (object_keys rels) in
    if has_key targetRelation relKeys then
      let! descriptor := lift (get_prop rels targetRelation) in
      let! model := lift (get_prop descriptor "model") in
      let! key := lift (get_prop descriptor "key") in
      ret (set_target relType model key result)
    else ret result
  else ret result.

Definition relTypes : list string := [BELONGS_TO; HAS_MANY; HAS_ONE].

Definition getThroughRelationshipData
    (parentModel throughRelation targetRelation : string) : M Resolution :=
  let result := initial_result in
  let! parent := registry_get parentModel in
  if negb (truthy parent) then ret (Failure "Invalid parent model") else
  let! parent := registry_get parentModel in
  let! model_definition := lift (get_prop parent "model_definition") in
  let! result := for_each (scan_through model_definition throughRelation) relTypes result in
  if negb (truthy (throughModel result)) then
    ret (Failure ("Invalid through relation [" +:+ throughRelation +:+ "]"))
  else
  let! through := registry_get (to_string (throughModel result)) in
  if negb (truthy through) then
    ret (Failure ("Invalid through model [" +:+ to_string (throughModel result) +:+ "]"))
  else
  let! through := registry_get (to_string (throughModel result)) in
  let result := set_throughModel through result in
  let! target_model_definition := lift (get_prop (throughModel result) "model_definition") in
  let! result := for_each (scan_target target_model_definition targetRelation) relTypes result in
  if negb (truthy (targetModel result)) then
    ret (Failure ("Invalid target relation [" +:+ targetRelation +:+ "]"))
  else
  let! target := registry_get (to_string (targetModel result)) in
  if negb (truthy target) then
    ret (Failure ("Invalid target model [" +:+ to_string (targetModel result) +:+ "]"))
  else
  let! target := registry_get (to_string (targetModel result)) in
  let result := set_targetModel target result in
  let result :=
    set_relationshipCombination
      (VStr (to_string (throughRelationshipType result) +:+ "-"
             +:+ to_string (targetRelationshipType result))) result in
  ret (Resolved result).

(** [isObject(modelInstance) && isModel(modelInstance.constructor)]: the
    callee is the identifier [isModel], evaluated before its argument. *)
Definition isModelInstance (modelInstance : JSVal) : M bool :=
  if isObject modelInstance then
    resolve_identifier "isModel"
      (let! constructor := lift (get_prop modelInstance "constructor") in
       ret (isModel constructor))
  else ret false.

(** [modelInstance.save(transaction)] and [modelInstance.delete(transaction)],
    awaited: the call is recorded, then it resolves or rejects. *)
Definition invoke (op : PersistOp) (modelInstance transaction : JSVal) : M unit :=
  match modelInstance with
  | VInst id _ =>
      do! log (EvPersist op id transaction) in
      if persists op id transaction then ret tt
      else throw (PersistFailure op id)
  | VUndefined | VNull => throw (TypeError "Cannot read property")
  | _ => throw (TypeError "is not a function")
  end.

Fixpoint _saveAll (modelInstances : list JSVal) (transaction : JSVal) : M unit :=
  match modelInstances with
  | [] => ret tt
  | modelInstance :: rest =>
      let! qualifies := isModelInstance modelInstance in
      do! (if qualifies then invoke Save modelInstance transaction else ret tt) in
      _saveAll rest transaction
  end.

Fixpoint _deleteAll (modelInstances : list JSVal) (transaction : JSVal) : M unit :=
  match modelInstances with
  | [] => ret tt
  | modelInstance :: rest =>
      let! qualifies := isModelInstance modelInstance in
      do! (if qualifies then invoke Delete modelInstance transaction else ret tt) in
      _deleteAll rest transaction
  end.

(** Modelled from the spec: the query engine ([this.knex]) is not part of
    the sources.  [knex.transaction(callback)] opens a new transaction and
    runs the callback with its handle; [trx.commit()] commits it. *)
Definition knex_transaction (callback : JSVal -> M unit) : M unit :=
  fun w =>
    let t := next_handle w in
    callback (VHandle t)
      (emit [EvTransaction t] (mkWorld (modelRegistry w) (S t) (trace w))).

(** Modelled from the spec: [trx.commit()] on a handle of the engine. *)
Definition commit (trx : JSVal) : M unit :=
  match trx with
  | VHandle t => log (EvCommit t)
  | VUndefined | VNull => throw (TypeError "Cannot read property 'commit'")
  | _ => throw (TypeError "trx.commit is not a function")
  end.

(** [Array.isArray(modelInstances)] holds of the arrays, [VArr]. *)
Definition saveAll (modelInstances transaction : JSVal) : M unit :=
  let transaction := default_null transaction in
  match modelInstances with
  | VArr elems =>
      if truthy transaction then _saveAll elems transaction
      else
        knex_transaction (fun trx =>
          do! _saveAll elems trx in
          commit trx)
  | _ => ret tt
  end.

Definition deleteAll (modelInstances transaction : JSVal) : M unit :=
  let transaction := default_null transaction in
  match modelInstances with
  | VArr elems =>
      if truthy transaction then _deleteAll elems transaction
      else
        knex_transaction (fun trx =>
          do! _deleteAll elems trx in
          commit trx)
  | _ => ret tt
  end.

(** *** What a model definition declares *)

Definition keys_of (v : JSVal) : list string :=
  match object_keys v with
  | Normal ks => ks
  | Throw _ => []
  end.

(** The descriptor that [model_definition] declares for the relation
    [name] under the kind [relType], when it declares one. *)
Definition relation_under (model_definition : JSVal) (relType name : string)
    : option JSVal :=
  if nullish model_definition then None
  else if isObject (prop model_definition relType) then
    if has_key name (keys_of (prop model_definition relType)) then
      Some (prop (prop model_definition relType) name)
    else None
  else None.

(** The last kind, in the order of [relTypes], under which the relation
    [name] is declared, with its descriptor. *)
Definition last_declared (model_definition : JSVal) (name : string)
    : option (string * JSVal) :=
  foldl (fun found relType =>
           match relation_under model_definition relType name with
           | Some descriptor => Some (relType, descriptor)
           | None => found
           end) None relTypes.

(** The [result] after a scan that found [found]. *)
Definition record_through (found : option (string * JSVal)) (r : ThroughData)
    : ThroughData :=
  match found with
  | Some (relType, descriptor) =>
      set_through relType (prop descriptor "model") (prop descriptor "key") r
  | None => r
  end.

Definition record_target (found : option (string * JSVal)) (r : ThroughData)
    : ThroughData :=
  match found with
  | Some (relType, descriptor) =>
      set_target relType (prop descriptor "model") (prop descriptor "key") r
  | None => r
  end.

(** The tests a candidate passes to enter the registry. *)
Definition accepts (model : JSVal) : bool :=
  isModel model
  && isObject (prop model "model_definition")
  && truthy (prop (prop model "model_definition") "table")
  && isObject (prop (prop model "model_definition") "attributes")
  && negb (Nat.eqb (length (keys_of (prop (prop model "model_definition") "attributes"))) 0).

(** [model] is the entry of the registry under [key], and one that
    [registerModel] lets in. *)
Definition registered (w : World) (key : string) (model : JSVal) : Prop :=
  modelRegistry w !! key = Some model /\ accepts model = true.

(** Every declaration of the relation [name] under a scanned kind has a
    descriptor object. *)
Definition described (model_definition : JSVal) (name : string) : Prop :=
  forall k d, k ∈ relTypes ->
    relation_under model_definition k name = Some d -> nullish d = false.

(** Every entry of the registry passed the tests of [registerModel]. *)
Definition registry_accepted (w : World) : Prop :=
  forall key model, modelRegistry w !! key = Some model -> accepts model = true.

(** A value that cannot be scanned for the relation [name]: it has no
    [model_definition], or it declares [name] under a scanned kind with
    [null] or [undefined] for a descriptor. *)
Definition unscannable (model : JSVal) (name : string) : Prop :=
  nullish (prop model "model_definition") = true
  \/ exists k d,
       k ∈ relTypes
       /\ relation_under (prop model "model_definition") k name = Some d
       /\ nullish d = true.

End Store.

(** A program that leaves the registry as it found it. *)
Definition preserves_registry {A} (m : M A) : Prop :=
  forall w, modelRegistry (m w).2 = modelRegistry w.

(** ** Concrete models and registries *)

Module Scenario.

(** What the host prints for a plain object.  The model names of the
    scenarios are strings, which the host is not asked to print. *)
Definition describe (_ : JSVal) : string := "[object Object]".
Definition always (_ : PersistOp) (_ : nat) (_ : JSVal) : bool := true.

Definition descriptor (model key : string) : JSVal :=
  VObj [("model", VStr model); ("key", VStr key)].

Definition columns : JSVal := VObj [("id", VObj [("type", VStr "integer")])].

Definition Supplier : JSVal :=
  VFun 3 "Supplier" true
    (VObj [("table", VStr "suppliers"); ("attributes", columns)]).

Definition Item : JSVal :=
  VFun 2 "Item" true
    (VObj [("table", VStr "items"); ("attributes", columns);
           ("belongsTo", VObj [("supplier", descriptor "Supplier" "supplier_id")])]).

Definition Order : JSVal :=
  VFun 1 "Order" true
    (VObj [("table", VStr "orders"); ("attributes", columns);
           ("hasMany", VObj [("items", descriptor "Item" "order_id")])]).

Definition empty_world : World := mkWorld ∅ 0 [].

Definition register_all (models : list JSVal) : M unit :=
  foldr (fun model rest =>
           do! registerModel isObject_typeof describe model in rest)
        (ret tt) models.

(** The registry after [Order], [Item] and [Supplier] have been
    registered. *)
Definition shop : World := (register_all [Order; Item; Supplier] empty_world).2.




(** [owner] is declared under [belongsTo] and under [hasOne]; [tags] only
    under [hasManyThrough]. *)
Definition Person : JSVal :=
  VFun 6 "Person" true
    (VObj [("table", VStr "people"); ("attributes", columns)]).

Definition Company : JSVal :=
  VFun 7 "Company" true
    (VObj [("table", VStr "companies"); ("attributes", columns);
           ("belongsTo", VObj [("founder", descriptor "Person" "founder_id")]);
           ("hasOne", VObj [("founder", descriptor "Company" "parent_id")])]).

Definition Account : JSVal :=
  VFun 8 "Account" true
    (VObj [("table", VStr "accounts"); ("attributes", columns);
           ("belongsTo", VObj [("owner", descriptor "Person" "person_id")]);
           ("hasOne", VObj [("owner", descriptor "Company" "account_id")]);
           ("hasManyThrough", VObj [("tags", descriptor "Person" "tag_id")])]).

Definition bank : World :=
  (register_all [Person; Company; Account] empty_world).2.


(** A class without a table. *)
Definition Tableless : JSVal :=
  VFun 10 "Tableless" true (VObj [("attributes", columns)]).

Definition order1 : JSVal := VInst 101 Order.
Definition item1 : JSVal := VInst 102 Item.

End Scenario.

(** ** The hook on the responses of the query engine *)

Definition and_then {A B} (c : Completion A) (f : A -> Completion B)
    : Completion B :=
  match c with
  | Normal a => f a
  | Throw e => Throw e
  end.

Section Hook.

Variable isObject : JSVal -> bool.

(** What the call of a function value on one argument returns or throws
    (code of the host). *)
Variable call : JSVal -> JSVal -> Completion JSVal.

Definition processResponse (result queryContext : JSVal) : Completion JSVal :=
  if isObject queryContext then
    and_then (get_prop queryContext "ormtransform") (fun ormtransform =>
    if typeof_function ormtransform then
      and_then (call ormtransform result) (fun transformed =>
      and_then (get_prop queryContext "returnSingleObject") (fun single =>
      if truthy single then
        and_then (get_prop transformed "length") (fun length =>
        if truthy length then get_prop transformed "0" else Normal VNull)
      else Normal transformed))
    else Normal result)
  else Normal result.

End Hook.

(** ** Registries of models *)

(** Every entry of the registry is a candidate that [registerModel] lets
    in, kept under its own [name]. *)
Definition registry_of_models (isObject : JSVal -> bool) (w : World) : Prop :=
  forall key model,
    modelRegistry w !! key = Some model ->
    accepts isObject model = true /\ prop model "name" = VStr key.

(** The descriptions [getThroughRelationshipData] can return. *)
Definition failure_descriptions (objectToString : JSVal -> string)
    (throughRelation targetRelation : string) (m : string) : Prop :=
  m = "Invalid parent model"
  \/ m = "Invalid through relation [" +:+ throughRelation +:+ "]"
  \/ (exists v, m = "Invalid through model [" +:+ to_string objectToString v +:+ "]")
  \/ m = "Invalid target relation [" +:+ targetRelation +:+ "]"
  \/ (exists v, m = "Invalid target model [" +:+ to_string objectToString v +:+ "]").

Module Cases.

(** [parts] names a model that is registered, [maker] one that is not;
    [label] has a descriptor without a model and [broken] has [null] for a
    descriptor. *)
Definition Part : JSVal :=
  VFun 21 "Part" true
    (VObj [("table", VStr "parts"); ("attributes", Scenario.columns);
           ("belongsTo", VObj [("maker", Scenario.descriptor "Maker" "maker_id")])]).

Definition Kit : JSVal :=
  VFun 22 "Kit" true
    (VObj [("table", VStr "kits"); ("attributes", Scenario.columns);
           ("hasMany", VObj [("parts", Scenario.descriptor "Part" "kit_id");
                             ("extras", Scenario.descriptor "Extra" "kit_id")]);
           ("hasOne", VObj [("label", VObj [("key", VStr "kit_id")]);
                            ("broken", VNull)])]).

Definition workshop : World :=
  (Scenario.register_all [Kit; Part] Scenario.empty_world).2.




(** A model class named [__proto__]. *)
Definition Proto : JSVal :=
  VFun 24 "__proto__" true
    (VObj [("table", VStr "protos"); ("attributes", Scenario.columns)]).

(** A model class named [length]. *)
Definition Length : JSVal :=
  VFun 25 "length" true
    (VObj [("table", VStr "lengths"); ("attributes", Scenario.columns)]).

(** The shop after a model class named [__proto__] has been registered. *)
Definition shadowed : World :=
  (Scenario.register_all [Proto] Scenario.shop).2.

(** A query context with a transform, in single-object mode or not. *)
Definition transform : JSVal := VFun 30 "ormtransform" false VUndefined.

Definition context (single : bool) : JSVal :=
  VObj [("ormtransform", transform); ("returnSingleObject", VBool single)].

(** The transform wraps each row into an instance of [Order]. *)
Definition wrap_rows (f rows : JSVal) : Completion JSVal :=
  match f, rows with
  | VFun 30 _ _ _, VArr elems =>
      Normal (VArr (imap (fun i _ => VInst i Scenario.Order) elems))
  | _, _ => Throw (TypeError "not a function")
  end.

End Cases.

(** ** Properties *)

Lemma emit_emit (es1 es2 : list Event) (w : World) :
  emit es2 (emit es1 w) = emit (es1 ++ es2) w.
Proof. unfold emit; simpl. by rewrite <- app_assoc. Qed.

Lemma emit_nil (w : World) : emit [] w = w.
Proof. destruct w; unfold emit; simpl. by rewrite app_nil_r. Qed.

Lemma modelRegistry_emit (es : list Event) (w : World) :
  modelRegistry (emit es w) = modelRegistry w.
Proof. reflexivity. Qed.

Lemma get_prop_readable (v : JSVal) (k : string) :
  nullish v = false -> get_prop v k = Normal (prop v k).
Proof.
  unfold prop. destruct v; simpl; try discriminate; intros _;
    repeat match goal with
           | |- context [if ?b then _ else _] => destruct b
           end; reflexivity.
Qed.

Lemma object_keys_readable (v : JSVal) :
  nullish v = false -> object_keys v = Normal (keys_of v).
Proof. unfold keys_of. destruct v; simpl; try discriminate; reflexivity. Qed.

Lemma truthy_not_nullish (v : JSVal) : truthy v = true -> nullish v = false.
Proof. destruct v; simpl; congruence. Qed.

Lemma truthy_name (name : string) : name <> "" -> truthy (VStr name) = true.
Proof.
  intros Hne. simpl. apply negb_true_iff.
  by destruct (String.eqb_spec name "").
Qed.


(** *** Programs that leave the registry alone *)

Lemma preserves_ret {A} (a : A) : preserves_registry (ret a).
Proof. intros w; reflexivity. Qed.

Lemma preserves_throw {A} (e : Error) : preserves_registry (@throw A e).
Proof. intros w; reflexivity. Qed.

Lemma preserves_lift {A} (c : Completion A) : preserves_registry (lift c).
Proof. intros w; reflexivity. Qed.

Lemma preserves_log (e : Event) : preserves_registry (log e).
Proof. intros w; reflexivity. Qed.

Lemma preserves_registry_get (key : string) : preserves_registry (registry_get key).
Proof. intros w; reflexivity. Qed.

Lemma preserves_bind {A B} (m : M A) (f : A -> M B) :
  preserves_registry m -> (forall a, preserves_registry (f a)) ->
  preserves_registry (bind m f).
Proof.
  intros Hm Hf w. unfold bind. specialize (Hm w).
  destruct (m w) as [[a|e] w']; simpl in *.
  - by rewrite Hf.
  - done.
Qed.

Lemma preserves_if {A} (b : bool) (m1 m2 : M A) :
  preserves_registry m1 -> preserves_registry m2 ->
  preserves_registry (if b then m1 else m2).
Proof. by destruct b. Qed.

Lemma preserves_for_each {A} (callback : A -> string -> M A) (kinds : list string) :
  (forall a k, preserves_registry (callback a k)) ->
  forall a, preserves_registry (for_each callback kinds a).
Proof.
  intros Hc. induction kinds as [|k kinds IH]; intros a; simpl.
  - apply preserves_ret.
  - apply preserves_bind; [apply Hc | apply IH].
Qed.

Create HintDb frame.
#[export] Hint Resolve preserves_ret preserves_throw preserves_lift preserves_log
  preserves_registry_get : frame.

Ltac frame :=
  repeat first
    [ progress intros
    | apply preserves_bind
    | apply preserves_if
    | apply preserves_for_each
    | solve [auto with frame] ].

(** *** Running a program step by step *)

Lemma bind_normal {A B} (m : M A) (f : A -> M B) w a w' :
  m w = (Normal a, w') -> bind m f w = f a w'.
Proof. intros H. unfold bind. by rewrite H. Qed.

Lemma bind_throw {A B} (m : M A) (f : A -> M B) w e w' :
  m w = (Throw e, w') -> bind m f w = (Throw e, w').
Proof. intros H. unfold bind. by rewrite H. Qed.

Lemma registry_get_run key w v :
  modelRegistry w !! key = Some v ->
  registry_get key w = (Normal v, emit [EvRegistryLookup key] w).
Proof. intros H. unfold registry_get, registry_read. by rewrite H. Qed.

Lemma registry_get_absent key w :
  modelRegistry w !! key = None ->
  registry_get key w =
    (Normal (inherited (modelRegistry w) key), emit [EvRegistryLookup key] w).
Proof. intros H. unfold registry_get, registry_read. by rewrite H. Qed.

Lemma lift_readable v k w :
  nullish v = false -> lift (get_prop v k) w = (Normal (prop v k), w).
Proof. intros H. unfold lift. by rewrite get_prop_readable. Qed.

Ltac run_with tac := erewrite bind_normal; [| tac].

Ltac run_lookup H :=
  run_with ltac:(apply registry_get_run; rewrite ?modelRegistry_emit; exact H).

Section StoreProperties.

Variable isObject : JSVal -> bool.
Variable objectToString : JSVal -> string.
Variable persists : PersistOp -> nat -> JSVal -> bool.

(** The spec's word on [isObject]: it holds of non-null structured
    objects, so neither of [undefined] nor of [null]. *)
Hypothesis isObject_nullish : forall v, nullish v = true -> isObject v = false.

Abbreviation resolve := (getThroughRelationshipData isObject objectToString).
Abbreviation declared := (relation_under isObject).
Abbreviation last_of := (last_declared isObject).
Abbreviation is_registered := (registered isObject).
Abbreviation has_descriptors := (described isObject).
Abbreviation register := (registerModel isObject objectToString).
Abbreviation accepted := (accepts isObject).
Abbreviation classify := (isModelInstance isObject).
Abbreviation str := (to_string objectToString).

Lemma isObject_readable (v : JSVal) : isObject v = true -> nullish v = false.
Proof.
  intros H. destruct (nullish v) eqn:E; [|done].
  rewrite isObject_nullish in H; done.
Qed.

Lemma scan_through_preserves md name r k :
  preserves_registry (scan_through isObject md name r k).
Proof. unfold scan_through. frame. Qed.

Lemma scan_target_preserves md name r k :
  preserves_registry (scan_target isObject md name r k).
Proof. unfold scan_target. frame. Qed.

Lemma scan_through_run md name r k w :
  nullish md = false ->
  (forall d, declared md k name = Some d -> nullish d = false) ->
  scan_through isObject md name r k w =
    (Normal (record_through (pair k <$> declared md k name) r), emit [EvScan k] w).
Proof.
  intros Hmd Hd. unfold scan_through, relation_under in *. rewrite Hmd in *.
  unfold bind, log, lift, ret. rewrite (get_prop_readable md k Hmd).
  destruct (isObject (prop md k)) eqn:Hobj; [|done].
  apply isObject_readable in Hobj.
  rewrite (object_keys_readable _ Hobj).
  destruct (has_key name (keys_of (prop md k))); [|done].
  rewrite (get_prop_readable _ name Hobj).
  specialize (Hd _ eq_refl).
  by rewrite !(get_prop_readable _ _ Hd).
Qed.

Lemma scan_target_run md name r k w :
  nullish md = false ->
  (forall d, declared md k name = Some d -> nullish d = false) ->
  scan_target isObject md name r k w =
    (Normal (record_target (pair k <$> declared md k name) r), emit [EvScan k] w).
Proof.
  intros Hmd Hd. unfold scan_target, relation_under in *. rewrite Hmd in *.
  unfold bind, log, lift, ret. rewrite (get_prop_readable md k Hmd).
  destruct (isObject (prop md k)) eqn:Hobj; [|done].
  apply isObject_readable in Hobj.
  rewrite (object_keys_readable _ Hobj).
  destruct (has_key name (keys_of (prop md k))); [|done].
  rewrite (get_prop_readable _ name Hobj).
  specialize (Hd _ eq_refl).
  by rewrite !(get_prop_readable _ _ Hd).
Qed.

Lemma set_through_record k m key found r :
  set_through k m key (record_through found r) = set_through k m key r.
Proof. by destruct found as [[? ?]|]. Qed.

Lemma set_target_record k m key found r :
  set_target k m key (record_target found r) = set_target k m key r.
Proof. by destruct found as [[? ?]|]. Qed.

Lemma for_each_scan_through md name :
  nullish md = false ->
  forall kinds,
  (forall k d, k ∈ kinds -> declared md k name = Some d -> nullish d = false) ->
  forall found r w,
    for_each (scan_through isObject md name) kinds (record_through found r) w =
      (Normal (record_through
                 (foldl (fun found relType =>
                           match declared md relType name with
                           | Some d => Some (relType, d)
                           | None => found
                           end) found kinds) r),
       emit (EvScan <$> kinds) w).
Proof.
  intros Hmd. induction kinds as [|k kinds IH]; intros Hd found r w; simpl.
  - by rewrite emit_nil.
  - assert (Hrest : forall k' d, k' ∈ kinds ->
              declared md k' name = Some d -> nullish d = false)
      by (intros k' d Hin; apply Hd; by right).
    unfold bind. rewrite scan_through_run; [|done|intros d; apply Hd; by left].
    destruct (declared md k name) as [d|]; simpl.
    + rewrite set_through_record.
      change (set_through k (prop d "model") (prop d "key") r)
        with (record_through (Some (k, d)) r).
      by rewrite IH, emit_emit.
    + by rewrite IH, emit_emit.
Qed.

Lemma for_each_scan_target md name :
  nullish md = false ->
  forall kinds,
  (forall k d, k ∈ kinds -> declared md k name = Some d -> nullish d = false) ->
  forall found r w,
    for_each (scan_target isObject md name) kinds (record_target found r) w =
      (Normal (record_target
                 (foldl (fun found relType =>
                           match declared md relType name with
                           | Some d => Some (relType, d)
                           | None => found
                           end) found kinds) r),
       emit (EvScan <$> kinds) w).
Proof.
  intros Hmd. induction kinds as [|k kinds IH]; intros Hd found r w; simpl.
  - by rewrite emit_nil.
  - assert (Hrest : forall k' d, k' ∈ kinds ->
              declared md k' name = Some d -> nullish d = false)
      by (intros k' d Hin; apply Hd; by right).
    unfold bind. rewrite scan_target_run; [|done|intros d; apply Hd; by left].
    destruct (declared md k name) as [d|]; simpl.
    + rewrite set_target_record.
      change (set_target k (prop d "model") (prop d "key") r)
        with (record_target (Some (k, d)) r).
      by rewrite IH, emit_emit.
    + by rewrite IH, emit_emit.
Qed.

(** The two scans of [getThroughRelationshipData], over [relTypes]. *)
Lemma scan_through_relTypes md name r w :
  nullish md = false ->
  (forall k d, k ∈ relTypes -> declared md k name = Some d -> nullish d = false) ->
  for_each (scan_through isObject md name) relTypes r w =
    (Normal (record_through (last_of md name) r), emit (EvScan <$> relTypes) w).
Proof.
  intros Hmd Hd.
  exact (for_each_scan_through md name Hmd relTypes Hd None r w).
Qed.

Lemma scan_target_relTypes md name r w :
  nullish md = false ->
  (forall k d, k ∈ relTypes -> declared md k name = Some d -> nullish d = false) ->
  for_each (scan_target isObject md name) relTypes r w =
    (Normal (record_target (last_of md name) r), emit (EvScan <$> relTypes) w).
Proof.
  intros Hmd Hd.
  exact (for_each_scan_target md name Hmd relTypes Hd None r w).
Qed.

Lemma registered_model w key model :
  is_registered w key model ->
  modelRegistry w !! key = Some model /\ truthy model = true
  /\ nullish (prop model "model_definition") = false.
Proof.
  intros [Hl Ha]. unfold accepts in Ha.
  repeat (apply andb_prop in Ha as [Ha ?]).
  split; [done|]. split.
  - destruct model; simpl in *; congruence.
  - by apply isObject_readable.
Qed.


(** The last declaration, kind by kind: [hasOne] before [hasMany] before
    [belongsTo]. *)
Lemma last_declared_cases md name :
  last_of md name =
    match declared md HAS_ONE name with
    | Some d => Some (HAS_ONE, d)
    | None =>
        match declared md HAS_MANY name with
        | Some d => Some (HAS_MANY, d)
        | None =>
            match declared md BELONGS_TO name with
            | Some d => Some (BELONGS_TO, d)
            | None => None
            end
        end
    end.
Proof.
  unfold last_declared, relTypes; simpl.
  by destruct (declared md HAS_ONE name), (declared md HAS_MANY name),
    (declared md BELONGS_TO name).
Qed.

Lemma elem_of_relTypes k :
  k ∈ relTypes <-> k = BELONGS_TO \/ k = HAS_MANY \/ k = HAS_ONE.
Proof. unfold relTypes. rewrite !elem_of_cons, elem_of_nil. tauto. Qed.

Lemma last_declared_none md name :
  (forall k, k ∈ relTypes -> declared md k name = None) ->
  last_of md name = None.
Proof.
  intros H. rewrite last_declared_cases.
  by rewrite !H by (apply elem_of_relTypes; auto).
Qed.


(** C6 (amended): with a parent name that has no entry in the registry and
    is no member of [Object.prototype] either ([constructor], [toString],
    [__proto__] and the others, which the registry object inherits), in a
    registry whose prototype has not been replaced (no model class named
    [__proto__] has been registered), the resolution returns the
    description "Invalid parent model" after the one lookup of that name:
    no other lookup and no scan is made, whatever the two relation names
    are. *)
Theorem unregistered_parent_fails_at_once w parent through target :
  modelRegistry w !! parent = None ->
  prototype (modelRegistry w) = None ->
  object_prototype_member parent = VUndefined ->
  resolve parent through target w =
    (Normal (Failure "Invalid parent model"), emit [EvRegistryLookup parent] w).
Proof.
  intros Hnone Hproto Hmember. unfold getThroughRelationshipData.
  run_with ltac:(apply registry_get_absent, Hnone).
  unfold inherited. by rewrite Hproto, Hmember.
Qed.

(** C7: with a registered parent, a relation name that none of the parent's
    [belongsTo], [hasMany] and [hasOne] mappings declares (a name declared
    under [hasManyThrough] only is such a name) gives the description
    "Invalid through relation [<name>]" with the name that was asked. *)
Theorem undeclared_through_relation w parent pm through target :
  is_registered w parent pm ->
  (forall k, k ∈ relTypes ->
     declared (prop pm "model_definition") k through = None) ->
  (resolve parent through target w).1 =
    Normal (Failure ("Invalid through relation [" +:+ through +:+ "]")).
Proof.
  intros Hp Hnone.
  apply registered_model in Hp as (Hp & Hpt & Hpd).
  unfold getThroughRelationshipData.
  run_lookup Hp. rewrite Hpt; cbn [negb].
  run_lookup Hp.
  run_with ltac:(apply lift_readable, truthy_not_nullish, Hpt).
  run_with ltac:(apply scan_through_relTypes;
                 [done | intros k d Hk; by rewrite Hnone]).
  by rewrite last_declared_none.
Qed.

(** C10: whatever the three names are, and whether the resolution succeeds,
    returns a description or throws, it leaves the registry as it was. *)
Theorem resolution_preserves_registry parent through target w :
  modelRegistry
    (getThroughRelationshipData isObject objectToString
       parent through target w).2
  = modelRegistry w.
Proof.
  revert w. change (preserves_registry (resolve parent through target)).
  unfold getThroughRelationshipData.
  frame; auto using scan_through_preserves, scan_target_preserves.
Qed.





(** *** Writing the registry *)

Lemma registry_lookup_insert (r : Registry) key key' v :
  (<[key := v]> r) !! key' = if decide (key = key') then Some v else r !! key'.
Proof. unfold lookup, registry_lookup; simpl. apply lookup_insert. Qed.


Lemma registry_insert_commute (r : Registry) k1 k2 v1 v2 :
  k1 <> k2 -> <[k1 := v1]> (<[k2 := v2]> r) = <[k2 := v2]> (<[k1 := v1]> r).
Proof.
  intros Hne. unfold insert, registry_insert; simpl. f_equal.
  by apply insert_insert_ne.
Qed.

Lemma assign_insert key v r :
  key <> "__proto__" -> assign key v r = <[key := v]> r.
Proof.
  intros Hne. unfold assign.
  destruct (String.eqb_spec key "__proto__"); [done | reflexivity].
Qed.

(** An assignment leaves the own entries under the other keys alone. *)
Lemma assign_lookup_ne key key' v r :
  key <> key' -> assign key v r !! key' = r !! key'.
Proof.
  intros Hne. unfold assign.
  assert (Hins : (<[key := v]> r) !! key' = r !! key').
  { rewrite registry_lookup_insert. by case_decide. }
  destruct (String.eqb key "__proto__"); [|done].
  destruct (r !! key); [done|].
  destruct (has_proto_accessor r); [|done].
  destruct v; try done; destruct (is_object _); done.
Qed.

(** An own entry after an assignment is the value assigned, under its key,
    or an entry that was there. *)
Lemma assign_lookup_Some key key' v m r :
  assign key v r !! key' = Some m ->
  (key' = key /\ m = v) \/ r !! key' = Some m.
Proof.
  destruct (decide (key = key')) as [<- | Hne].
  - unfold assign.
    assert (Hins : (<[key := v]> r) !! key = Some m -> m = v).
    { rewrite registry_lookup_insert. case_decide; congruence. }
    destruct (String.eqb key "__proto__"); [|intros H; left; auto].
    destruct (r !! key) eqn:Hown; [intros H; left; auto|].
    destruct (has_proto_accessor r); [|intros H; left; auto].
    intros H. right.
    destruct v; simpl in H; try (rewrite <- H; reflexivity);
      try (rewrite <- Hown, <- H; reflexivity).
  - rewrite assign_lookup_ne by done. auto.
Qed.

(** Two assignments under different keys, of which at most one is
    [__proto__], can be made in either order. *)
Lemma assign_proto v r :
  assign "__proto__" v r =
    match r !! "__proto__" with
    | Some _ => <["__proto__" := v]> r
    | None =>
        if has_proto_accessor r then
          match v with
          | VNull => mkRegistry (entries r) (Some VNull)
          | _ => if is_object v then mkRegistry (entries r) (Some v) else r
          end
        else <["__proto__" := v]> r
    end.
Proof. reflexivity. Qed.

Lemma assign_proto_insert k v u r :
  k <> "__proto__" ->
  assign "__proto__" v (<[k := u]> r) = <[k := u]> (assign "__proto__" v r).
Proof.
  intros Hne. rewrite !assign_proto, registry_lookup_insert.
  case_decide; [done|].
  destruct (r !! "__proto__") eqn:Hown.
  - by apply registry_insert_commute.
  - change (has_proto_accessor (<[k:=u]> r)) with (has_proto_accessor r).
    destruct (has_proto_accessor r); [|by apply registry_insert_commute].
    destruct v; try reflexivity; destruct (is_object _); reflexivity.
Qed.

Lemma assign_commute k1 k2 v1 v2 r :
  k2 <> k1 ->
  assign k2 v2 (assign k1 v1 r) = assign k1 v1 (assign k2 v2 r).
Proof.
  intros Hne.
  destruct (decide (k1 = "__proto__")) as [-> | H1];
    destruct (decide (k2 = "__proto__")) as [-> | H2]; try done.
  - rewrite !(assign_insert k2) by done. by rewrite assign_proto_insert.
  - rewrite !(assign_insert k1) by done. by rewrite assign_proto_insert.
  - rewrite !(assign_insert k1), !(assign_insert k2) by done.
    by apply registry_insert_commute.
Qed.

(** What [registerModel] does, by the outcome of its tests. *)
Lemma registerModel_run model w :
  register model w =
    if negb (isModel model) then
      if unconvertible model then
        (Throw (TypeError "Cannot convert object to primitive value"), w)
      else (Throw (InvalidModelError (NotStoreModel model)), w)
    else if negb (isObject (prop model "model_definition")) then
      (Throw (InvalidModelError DefinitionNotObject), w)
    else if negb (truthy (prop (prop model "model_definition") "table")) then
      (Throw (InvalidModelError TableRequired), w)
    else if negb (isObject (prop (prop model "model_definition") "attributes"))
            || Nat.eqb (length (keys_of (prop (prop model "model_definition")
                                              "attributes"))) 0 then
      (Throw (InvalidModelError AttributesEmpty), w)
    else if read_only_inherited (modelRegistry w) (str (prop model "name")) then
      (Throw (TypeError ("Cannot assign to read only property '"
                         +:+ str (prop model "name") +:+ "'")), w)
    else
      (Normal tt,
       mkWorld (assign (str (prop model "name")) model (modelRegistry w))
         (next_handle w) (trace w)).
Proof.
  unfold registerModel.
  destruct (isModel model) eqn:Hm; cbn [negb].
  2:{ unfold convert, bind. by destruct (unconvertible model). }
  assert (Hnm : nullish model = false) by (destruct model; done).
  run_with ltac:(apply lift_readable, Hnm).
  destruct (isObject (prop model "model_definition")) eqn:Hmd; cbn [negb]; [|done].
  apply isObject_readable in Hmd.
  run_with ltac:(apply lift_readable, Hmd).
  destruct (truthy (prop (prop model "model_definition") "table"));
    cbn [negb]; [|done].
  run_with ltac:(apply lift_readable, Hmd).
  destruct (isObject (prop (prop model "model_definition") "attributes")) eqn:Ha;
    cbn [negb orb]; [|done].
  apply isObject_readable in Ha.
  run_with ltac:(unfold lift; by rewrite (object_keys_readable _ Ha)).
  destruct (Nat.eqb _ 0); [done|].
  run_with ltac:(apply lift_readable, Hnm).
  reflexivity.
Qed.

Lemma read_only_original r key :
  prototype r = None -> read_only_inherited r key = false.
Proof. intros H. unfold read_only_inherited. rewrite H. by destruct (r !! key). Qed.

(** A candidate that passes the tests is assigned to the registry under
    its name. *)
Lemma registerModel_passed model w :
  accepted model = true ->
  register model w =
    if read_only_inherited (modelRegistry w) (str (prop model "name")) then
      (Throw (TypeError ("Cannot assign to read only property '"
                         +:+ str (prop model "name") +:+ "'")), w)
    else
      (Normal tt,
       mkWorld (assign (str (prop model "name")) model (modelRegistry w))
         (next_handle w) (trace w)).
Proof.
  intros Ha. rewrite registerModel_run. unfold accepts in Ha.
  repeat (apply andb_prop in Ha as [Ha ?]).
  rewrite Ha. cbn [negb].
  repeat match goal with
         | H : negb _ = true |- _ => apply negb_true_iff in H
         end.
  repeat match goal with
         | H : _ = true |- _ => rewrite H; clear H
         | H : _ = false |- _ => rewrite H; clear H
         end.
  by cbn [negb orb].
Qed.

Lemma registerModel_accepted model w :
  accepted model = true ->
  read_only_inherited (modelRegistry w) (str (prop model "name")) = false ->
  register model w =
    (Normal tt,
     mkWorld (assign (str (prop model "name")) model (modelRegistry w))
       (next_handle w) (trace w)).
Proof. intros Ha Hw. by rewrite registerModel_passed, Hw. Qed.

Lemma registerModel_refused model w :
  accepted model = true ->
  read_only_inherited (modelRegistry w) (str (prop model "name")) = true ->
  register model w =
    (Throw (TypeError ("Cannot assign to read only property '"
                       +:+ str (prop model "name") +:+ "'")), w).
Proof. intros Ha Hw. by rewrite registerModel_passed, Hw. Qed.

(** The own entries after a registration: those before, and the candidate
    under its name when it was let in. *)
Lemma registerModel_lookup_Some model w key m :
  accepted model = true ->
  modelRegistry (register model w).2 !! key = Some m ->
  (key = str (prop model "name") /\ m = model) \/ modelRegistry w !! key = Some m.
Proof.
  intros Ha. rewrite registerModel_passed by done.
  destruct (read_only_inherited _ _); simpl; [auto|].
  intros [[-> ->] | Hold]%assign_lookup_Some; auto.
Qed.


(** A candidate that fails the tests makes [registerModel] throw and leave
    the store as it was: a [TypeError] when the candidate is no model class
    and cannot be converted for the message, an [InvalidModelError]
    otherwise. *)
Lemma registerModel_rejected model w :
  accepted model = false ->
  (isModel model = false /\ unconvertible model = true
   /\ register model w =
        (Throw (TypeError "Cannot convert object to primitive value"), w))
  \/ ((isModel model = true \/ unconvertible model = false)
      /\ exists r, register model w = (Throw (InvalidModelError r), w)).
Proof.
  intros Ha. rewrite registerModel_run. unfold accepts in Ha.
  destruct (isModel model); cbn [negb].
  2:{ destruct (unconvertible model); [left | right]; eauto. }
  right. split; [auto|].
  destruct (isObject (prop model "model_definition")); cbn [negb]; [|eauto].
  destruct (truthy (prop (prop model "model_definition") "table"));
    cbn [negb]; [|eauto].
  destruct (isObject (prop (prop model "model_definition") "attributes"));
    cbn [negb orb]; [|eauto].
  destruct (Nat.eqb _ 0); [eauto|]. done.
Qed.

Lemma registerModel_rejected_world model w :
  accepted model = false -> (register model w).2 = w.
Proof.
  intros Ha.
  destruct (registerModel_rejected model w Ha)
    as [(_ & _ & ->) | (_ & r & ->)]; done.
Qed.

Lemma registerModel_invariant model w :
  registry_accepted isObject w -> registry_accepted isObject (register model w).2.
Proof.
  intros Hinv. destruct (accepted model) eqn:Ha.
  - intros key m.
    intros [[-> ->] | Hold]%registerModel_lookup_Some; [done | by eapply Hinv | done].
  - by rewrite registerModel_rejected_world.
Qed.


(** *** The batch operations *)

(** The classification of an entry: an entry that is not an object is not a
    model instance; for an object the call of [isModel] throws, as no such
    name is bound in the module. *)
Lemma isModelInstance_run v w :
  classify v w =
    (if isObject v then Throw (ReferenceError "isModel") else Normal false, w).
Proof. unfold isModelInstance. by destruct (isObject v). Qed.

Lemma _saveAll_run elems transaction w :
  _saveAll isObject persists elems transaction w =
    (if existsb isObject elems then Throw (ReferenceError "isModel")
     else Normal tt, w).
Proof.
  induction elems as [|v elems IH]; simpl; [done|].
  unfold bind at 1. rewrite isModelInstance_run.
  destruct (isObject v); simpl; [done|].
  unfold bind, ret. exact IH.
Qed.

Lemma _deleteAll_run elems transaction w :
  _deleteAll isObject persists elems transaction w =
    (if existsb isObject elems then Throw (ReferenceError "isModel")
     else Normal tt, w).
Proof.
  induction elems as [|v elems IH]; simpl; [done|].
  unfold bind at 1. rewrite isModelInstance_run.
  destruct (isObject v); simpl; [done|].
  unfold bind, ret. exact IH.
Qed.

(** With a handle of the caller the batch runs against it: no transaction
    is opened and none is committed. *)
Lemma saveAll_with_handle elems transaction w :
  truthy transaction = true ->
  saveAll isObject persists (VArr elems) transaction w =
    _saveAll isObject persists elems transaction w.
Proof.
  intros Ht. unfold saveAll.
  assert (default_null transaction = transaction) as -> by (by destruct transaction).
  by rewrite Ht.
Qed.

(** Without one, or with a falsy one, a transaction is opened, the batch
    runs against its handle, and it is committed when the batch completes. *)
Lemma saveAll_without_handle elems transaction w :
  truthy transaction = false ->
  saveAll isObject persists (VArr elems) transaction w =
    let t := next_handle w in
    let w' := mkWorld (modelRegistry w) (S t) (trace w) in
    if existsb isObject elems then
      (Throw (ReferenceError "isModel"), emit [EvTransaction t] w')
    else (Normal tt, emit [EvTransaction t; EvCommit t] w').
Proof.
  intros Ht. unfold saveAll.
  assert (truthy (default_null transaction) = false) as ->
    by (by destruct transaction).
  unfold knex_transaction, bind. rewrite _saveAll_run.
  destruct (existsb isObject elems); simpl; [done|].
  unfold log. by rewrite emit_emit.
Qed.

Lemma deleteAll_with_handle elems transaction w :
  truthy transaction = true ->
  deleteAll isObject persists (VArr elems) transaction w =
    _deleteAll isObject persists elems transaction w.
Proof.
  intros Ht. unfold deleteAll.
  assert (default_null transaction = transaction) as -> by (by destruct transaction).
  by rewrite Ht.
Qed.

Lemma deleteAll_without_handle elems transaction w :
  truthy transaction = false ->
  deleteAll isObject persists (VArr elems) transaction w =
    let t := next_handle w in
    let w' := mkWorld (modelRegistry w) (S t) (trace w) in
    if existsb isObject elems then
      (Throw (ReferenceError "isModel"), emit [EvTransaction t] w')
    else (Normal tt, emit [EvTransaction t; EvCommit t] w').
Proof.
  intros Ht. unfold deleteAll.
  assert (truthy (default_null transaction) = false) as ->
    by (by destruct transaction).
  unfold knex_transaction, bind. rewrite _deleteAll_run.
  destruct (existsb isObject elems); simpl; [done|].
  unfold log. by rewrite emit_emit.
Qed.

(** A falsy transaction argument is an omitted one. *)
Lemma saveAll_falsy_is_omitted modelInstances transaction w :
  truthy transaction = false ->
  saveAll isObject persists modelInstances transaction w =
    saveAll isObject persists modelInstances VUndefined w.
Proof.
  intros Ht. unfold saveAll.
  assert (truthy (default_null transaction) = false) as ->
    by (by destruct transaction).
  reflexivity.
Qed.

Lemma deleteAll_falsy_is_omitted modelInstances transaction w :
  truthy transaction = false ->
  deleteAll isObject persists modelInstances transaction w =
    deleteAll isObject persists modelInstances VUndefined w.
Proof.
  intros Ht. unfold deleteAll.
  assert (truthy (default_null transaction) = false) as ->
    by (by destruct transaction).
  reflexivity.
Qed.

(** C4 (amended): [saveAll([])] and [deleteAll([])], called without a
    transaction, run no [save] and no [delete] and leave the registry as it
    was, but each opens one transaction on the engine and commits it. *)
Theorem empty_batch_opens_and_commits w :
  let t := next_handle w in
  let w' := mkWorld (modelRegistry w) (S t) (trace w ++ [EvTransaction t; EvCommit t]) in
  saveAll isObject persists (VArr []) VUndefined w = (Normal tt, w')
  /\ deleteAll isObject persists (VArr []) VUndefined w = (Normal tt, w').
Proof.
  split.
  - by rewrite saveAll_without_handle.
  - by rewrite deleteAll_without_handle.
Qed.

(** C3: when the list holds an object (as every model instance is),
    [saveAll] without a transaction opens one transaction and then throws
    the [ReferenceError] of [isModel] while it classifies that entry: no
    [save] is run and the transaction is not committed.  (With a handle of
    the caller, [saveAll_with_handle], nothing is opened or committed.) *)
Theorem saveAll_of_instances_never_commits elems w :
  existsb isObject elems = true ->
  saveAll isObject persists (VArr elems) VUndefined w =
    (Throw (ReferenceError "isModel"),
     mkWorld (modelRegistry w) (S (next_handle w))
       (trace w ++ [EvTransaction (next_handle w)])).
Proof.
  intros Hobj. rewrite saveAll_without_handle by done. cbn zeta.
  by rewrite Hobj.
Qed.

(** C5: with a handle of the caller, [saveAll] skips the entries that are
    not objects and throws the [ReferenceError] of [isModel] at the first
    entry that is one; in either case the world is as before: [save] is run
    on no entry of the list, model instance or not. *)
Theorem saveAll_saves_no_instance elems transaction w :
  truthy transaction = true ->
  saveAll isObject persists (VArr elems) transaction w =
    (if existsb isObject elems then Throw (ReferenceError "isModel")
     else Normal tt, w).
Proof.
  intros Ht. rewrite saveAll_with_handle by done. apply _saveAll_run.
Qed.

(** C9: with a falsy transaction, [saveAll] and [deleteAll] do what they do
    without one, and open a transaction of their own; but when the list
    holds an object (as every model instance is) they throw the
    [ReferenceError] of [isModel] before they commit it. *)
Theorem falsy_transaction_opens_but_never_commits elems transaction w :
  truthy transaction = false ->
  existsb isObject elems = true ->
  let opened :=
    mkWorld (modelRegistry w) (S (next_handle w))
      (trace w ++ [EvTransaction (next_handle w)]) in
  saveAll isObject persists (VArr elems) transaction w =
    saveAll isObject persists (VArr elems) VUndefined w
  /\ saveAll isObject persists (VArr elems) transaction w =
       (Throw (ReferenceError "isModel"), opened)
  /\ deleteAll isObject persists (VArr elems) transaction w =
       deleteAll isObject persists (VArr elems) VUndefined w
  /\ deleteAll isObject persists (VArr elems) transaction w =
       (Throw (ReferenceError "isModel"), opened).
Proof.
  intros Ht Hobj opened. subst opened.
  rewrite (saveAll_falsy_is_omitted _ _ _ Ht), (deleteAll_falsy_is_omitted _ _ _ Ht).
  rewrite saveAll_without_handle, deleteAll_without_handle by done.
  cbn zeta. rewrite Hobj. done.
Qed.

(** *** The other outcomes of the resolution *)

(** A declaration whose descriptor has no truthy model name counts as no
    declaration: the description is "Invalid through relation [<name>]"
    although the name is declared. *)
Theorem declaration_without_model_name w parent pm through target k1 d1 :
  is_registered w parent pm ->
  has_descriptors (prop pm "model_definition") through ->
  last_of (prop pm "model_definition") through = Some (k1, d1) ->
  truthy (prop d1 "model") = false ->
  (resolve parent through target w).1 =
    Normal (Failure ("Invalid through relation [" +:+ through +:+ "]")).
Proof.
  intros Hp Hr1 Hl1 Hm1.
  apply registered_model in Hp as (Hp & Hpt & Hpd).
  unfold getThroughRelationshipData.
  run_lookup Hp. rewrite Hpt; cbn [negb].
  run_lookup Hp.
  run_with ltac:(apply lift_readable, truthy_not_nullish, Hpt).
  run_with ltac:(by apply scan_through_relTypes).
  rewrite Hl1. cbn [record_through set_through throughModel].
  by rewrite Hm1.
Qed.

(** A through relation whose descriptor names, by a non-empty string, a
    model that has no entry in the registry and is no member of
    [Object.prototype] either, in a registry whose prototype has not been
    replaced, gives "Invalid through model [<model name>]", after one
    lookup of that name. *)
Theorem through_model_not_registered w parent pm through target k1 d1 name :
  is_registered w parent pm ->
  has_descriptors (prop pm "model_definition") through ->
  last_of (prop pm "model_definition") through = Some (k1, d1) ->
  prop d1 "model" = VStr name ->
  name <> "" ->
  modelRegistry w !! name = None ->
  prototype (modelRegistry w) = None ->
  object_prototype_member name = VUndefined ->
  resolve parent through target w =
    (Normal (Failure ("Invalid through model [" +:+ name +:+ "]")),
     emit ([EvRegistryLookup parent; EvRegistryLookup parent]
           ++ (EvScan <$> relTypes)
           ++ [EvRegistryLookup name]) w).
Proof.
  intros Hp Hr1 Hl1 Hs Hname Hnone Hproto Hmember.
  assert (Hm1 : truthy (prop d1 "model") = true)
    by (rewrite Hs; apply truthy_name, Hname).
  assert (Hstr : str (prop d1 "model") = name) by (by rewrite Hs).
  apply registered_model in Hp as (Hp & Hpt & Hpd).
  unfold getThroughRelationshipData.
  run_lookup Hp. rewrite Hpt; cbn [negb].
  run_lookup Hp.
  run_with ltac:(apply lift_readable, truthy_not_nullish, Hpt).
  run_with ltac:(by apply scan_through_relTypes).
  rewrite Hl1. cbn [record_through set_through throughModel].
  rewrite Hm1; cbn [negb]. rewrite Hstr.
  run_with ltac:(apply registry_get_absent; rewrite ?modelRegistry_emit; exact Hnone).
  rewrite !modelRegistry_emit. unfold inherited. rewrite Hproto, Hmember.
  cbn [truthy negb]. unfold ret.
  by rewrite !emit_emit.
Qed.


(** With the through hop resolved through a descriptor that names its
    model by a non-empty string, and every declaration of the target
    relation on the through model given a descriptor object, a target
    relation whose descriptor names, by a non-empty string, a model that has
    no entry in the registry and is no member of [Object.prototype] either,
    in a registry whose prototype has not been replaced, gives "Invalid
    target model [<model name>]". *)
Theorem target_model_not_registered
  w parent pm through target k1 d1 name1 tm k2 d2 name2 :
  is_registered w parent pm ->
  has_descriptors (prop pm "model_definition") through ->
  last_of (prop pm "model_definition") through = Some (k1, d1) ->
  prop d1 "model" = VStr name1 ->
  name1 <> "" ->
  is_registered w name1 tm ->
  has_descriptors (prop tm "model_definition") target ->
  last_of (prop tm "model_definition") target = Some (k2, d2) ->
  prop d2 "model" = VStr name2 ->
  name2 <> "" ->
  modelRegistry w !! name2 = None ->
  prototype (modelRegistry w) = None ->
  object_prototype_member name2 = VUndefined ->
  (resolve parent through target w).1 =
    Normal (Failure ("Invalid target model [" +:+ name2 +:+ "]")).
Proof.
  intros Hp Hr1 Hl1 Hs1 Hname1 Ht Hr2 Hl2 Hs2 Hname Hnone Hproto Hmember.
  assert (Hm1 : truthy (prop d1 "model") = true)
    by (rewrite Hs1; apply truthy_name, Hname1).
  assert (Hm2 : truthy (prop d2 "model") = true)
    by (rewrite Hs2; apply truthy_name, Hname).
  assert (Hstr1 : str (prop d1 "model") = name1) by (by rewrite Hs1).
  assert (Hstr2 : str (prop d2 "model") = name2) by (by rewrite Hs2).
  apply registered_model in Hp as (Hp & Hpt & Hpd).
  apply registered_model in Ht as (Ht & Htt & Htd).
  unfold getThroughRelationshipData.
  run_lookup Hp. rewrite Hpt; cbn [negb].
  run_lookup Hp.
  run_with ltac:(apply lift_readable, truthy_not_nullish, Hpt).
  run_with ltac:(by apply scan_through_relTypes).
  rewrite Hl1. cbn [record_through set_through throughModel]. rewrite Hm1; cbn [negb].
  rewrite Hstr1.
  run_lookup Ht. rewrite Htt; cbn [negb].
  run_lookup Ht. cbn [set_throughModel throughModel].
  run_with ltac:(apply lift_readable, truthy_not_nullish, Htt).
  match goal with
  | |- context [for_each _ _ ?r] => change r with (record_target None r)
  end.
  run_with ltac:(by apply scan_target_relTypes).
  rewrite Hl2. cbn [record_target set_target targetModel]. rewrite Hm2; cbn [negb].
  rewrite Hstr2.
  run_with ltac:(apply registry_get_absent; rewrite ?modelRegistry_emit; exact Hnone).
  rewrite !modelRegistry_emit. unfold inherited. by rewrite Hproto, Hmember.
Qed.

(** *** Descriptors that are [null] or [undefined] *)

Lemma scan_through_nullish md name r k d w :
  nullish md = false ->
  declared md k name = Some d -> nullish d = true ->
  exists msg, scan_through isObject md name r k w =
                (Throw (TypeError msg), emit [EvScan k] w).
Proof.
  intros Hmd Hd Hn. unfold scan_through, relation_under in *. rewrite Hmd in *.
  unfold bind, log, lift, ret. rewrite (get_prop_readable md k Hmd).
  destruct (isObject (prop md k)) eqn:Hobj; [|done].
  apply isObject_readable in Hobj.
  rewrite (object_keys_readable _ Hobj).
  destruct (has_key name (keys_of (prop md k))); [|done].
  rewrite (get_prop_readable _ name Hobj).
  injection Hd as ->. destruct d; try discriminate; simpl; eauto.
Qed.

Lemma scan_target_nullish md name r k d w :
  nullish md = false ->
  declared md k name = Some d -> nullish d = true ->
  exists msg, scan_target isObject md name r k w =
                (Throw (TypeError msg), emit [EvScan k] w).
Proof.
  intros Hmd Hd Hn. unfold scan_target, relation_under in *. rewrite Hmd in *.
  unfold bind, log, lift, ret. rewrite (get_prop_readable md k Hmd).
  destruct (isObject (prop md k)) eqn:Hobj; [|done].
  apply isObject_readable in Hobj.
  rewrite (object_keys_readable _ Hobj).
  destruct (has_key name (keys_of (prop md k))); [|done].
  rewrite (get_prop_readable _ name Hobj).
  injection Hd as ->. destruct d; try discriminate; simpl; eauto.
Qed.

Lemma for_each_scan_through_throws md name :
  nullish md = false ->
  forall kinds found r w,
    (exists k d, k ∈ kinds /\ declared md k name = Some d /\ nullish d = true) ->
    exists msg w',
      for_each (scan_through isObject md name) kinds (record_through found r) w =
        (Throw (TypeError msg), w').
Proof.
  intros Hmd. induction kinds as [|k0 kinds IH]; intros found r w (k & d & Hk & Hd & Hn).
  - by apply elem_of_nil in Hk.
  - simpl. destruct (declared md k0 name) as [d0|] eqn:Hd0.
    + destruct (nullish d0) eqn:Hn0.
      * destruct (scan_through_nullish md name (record_through found r) k0 d0 w)
          as [msg Hs]; [done..|].
        exists msg, (emit [EvScan k0] w). by apply bind_throw.
      * erewrite bind_normal;
          [|apply scan_through_run; [done|intros d' Hd'; congruence]].
        rewrite Hd0. simpl. rewrite set_through_record.
        change (set_through k0 (prop d0 "model") (prop d0 "key") r)
          with (record_through (Some (k0, d0)) r).
        apply IH. exists k, d. split; [|done].
        apply elem_of_cons in Hk as [-> | Hk]; [congruence | done].
    + erewrite bind_normal;
        [|apply scan_through_run; [done|intros d' Hd'; congruence]].
      rewrite Hd0. simpl.
      apply IH. exists k, d. split; [|done].
      apply elem_of_cons in Hk as [-> | Hk]; [congruence | done].
Qed.

Lemma for_each_scan_target_throws md name :
  nullish md = false ->
  forall kinds found r w,
    (exists k d, k ∈ kinds /\ declared md k name = Some d /\ nullish d = true) ->
    exists msg w',
      for_each (scan_target isObject md name) kinds (record_target found r) w =
        (Throw (TypeError msg), w').
Proof.
  intros Hmd. induction kinds as [|k0 kinds IH]; intros found r w (k & d & Hk & Hd & Hn).
  - by apply elem_of_nil in Hk.
  - simpl. destruct (declared md k0 name) as [d0|] eqn:Hd0.
    + destruct (nullish d0) eqn:Hn0.
      * destruct (scan_target_nullish md name (record_target found r) k0 d0 w)
          as [msg Hs]; [done..|].
        exists msg, (emit [EvScan k0] w). by apply bind_throw.
      * erewrite bind_normal;
          [|apply scan_target_run; [done|intros d' Hd'; congruence]].
        rewrite Hd0. simpl. rewrite set_target_record.
        change (set_target k0 (prop d0 "model") (prop d0 "key") r)
          with (record_target (Some (k0, d0)) r).
        apply IH. exists k, d. split; [|done].
        apply elem_of_cons in Hk as [-> | Hk]; [congruence | done].
    + erewrite bind_normal;
        [|apply scan_target_run; [done|intros d' Hd'; congruence]].
      rewrite Hd0. simpl.
      apply IH. exists k, d. split; [|done].
      apply elem_of_cons in Hk as [-> | Hk]; [congruence | done].
Qed.

(** Either every scanned declaration of a name has a descriptor object, or
    one of them is [null] or [undefined]. *)
Lemma described_or_nullish md name :
  has_descriptors md name
  \/ exists k d, k ∈ relTypes /\ declared md k name = Some d /\ nullish d = true.
Proof.
  assert (Hone : forall k,
            (forall d, declared md k name = Some d -> nullish d = false)
            \/ exists d, declared md k name = Some d /\ nullish d = true).
  { intros k. destruct (declared md k name) as [d|]; [|left; done].
    destruct (nullish d) eqn:Hn; [right; eauto | left; congruence]. }
  destruct (Hone BELONGS_TO) as [H1 | (d & ? & ?)];
    [|right; exists BELONGS_TO, d; split; [apply elem_of_relTypes; auto | done]].
  destruct (Hone HAS_MANY) as [H2 | (d & ? & ?)];
    [|right; exists HAS_MANY, d; split; [apply elem_of_relTypes; auto | done]].
  destruct (Hone HAS_ONE) as [H3 | (d & ? & ?)];
    [|right; exists HAS_ONE, d; split; [apply elem_of_relTypes; auto | done]].
  left. intros k d Hk. apply elem_of_relTypes in Hk as [-> | [-> | ->]]; auto.
Qed.

(** A declaration of the through relation, under a scanned kind, whose
    descriptor is [null] or [undefined] makes the resolution throw a
    [TypeError]: no description is returned. *)
Theorem null_descriptor_throws w parent pm through target k d :
  is_registered w parent pm ->
  k ∈ relTypes ->
  declared (prop pm "model_definition") k through = Some d ->
  nullish d = true ->
  exists msg, (resolve parent through target w).1 = Throw (TypeError msg).
Proof.
  intros Hp Hk Hd Hn.
  apply registered_model in Hp as (Hp & Hpt & Hpd).
  unfold getThroughRelationshipData.
  run_lookup Hp. rewrite Hpt; cbn [negb].
  run_lookup Hp.
  run_with ltac:(apply lift_readable, truthy_not_nullish, Hpt).
  destruct (for_each_scan_through_throws (prop pm "model_definition") through
              Hpd relTypes None initial_result
              (emit [EvRegistryLookup parent] (emit [EvRegistryLookup parent] w)))
    as (msg & w' & Hthrow); [eauto|].
  exists msg. erewrite bind_throw; [|exact Hthrow]. done.
Qed.

(** *** All the outcomes, in a registry of models *)

Lemma registry_of_models_registered w key model :
  registry_of_models isObject w ->
  modelRegistry w !! key = Some model -> is_registered w key model.
Proof. intros Hinv Hl. split; [done|]. by apply (Hinv key model). Qed.

Lemma last_declared_kind md name k d :
  last_of md name = Some (k, d) -> k ∈ relTypes /\ declared md k name = Some d.
Proof.
  rewrite last_declared_cases.
  destruct (declared md HAS_ONE name) eqn:H1;
    [intros [= <- <-]; split; [apply elem_of_relTypes; auto | done]|].
  destruct (declared md HAS_MANY name) eqn:H2;
    [intros [= <- <-]; split; [apply elem_of_relTypes; auto | done]|].
  destruct (declared md BELONGS_TO name) eqn:H3;
    [intros [= <- <-]; split; [apply elem_of_relTypes; auto | done]|].
  done.
Qed.

Lemma scan_through_of_nullish md name r w :
  nullish md = true ->
  exists msg w',
    for_each (scan_through isObject md name) relTypes r w =
      (Throw (TypeError msg), w').
Proof.
  intros Hn. unfold relTypes. simpl. unfold scan_through, bind, log, lift.
  destruct md; try discriminate; simpl; eauto.
Qed.

Lemma scan_target_of_nullish md name r w :
  nullish md = true ->
  exists msg w',
    for_each (scan_target isObject md name) relTypes r w =
      (Throw (TypeError msg), w').
Proof.
  intros Hn. unfold relTypes. simpl. unfold scan_target, bind, log, lift.
  destruct md; try discriminate; simpl; eauto.
Qed.

Lemma scan_through_outcome model name r w :
  (unscannable isObject model name
   /\ exists msg w',
        for_each (scan_through isObject (prop model "model_definition") name)
          relTypes r w = (Throw (TypeError msg), w'))
  \/ (nullish (prop model "model_definition") = false
      /\ has_descriptors (prop model "model_definition") name).
Proof.
  destruct (nullish (prop model "model_definition")) eqn:Hn.
  { left. split; [by left|]. by apply scan_through_of_nullish. }
  destruct (described_or_nullish (prop model "model_definition") name)
    as [Hr | Hex]; [right; done|].
  left. split; [right; exact Hex|].
  by apply (for_each_scan_through_throws _ name Hn relTypes None r w).
Qed.

Lemma scan_target_outcome model name r w :
  (unscannable isObject model name
   /\ exists msg w',
        for_each (scan_target isObject (prop model "model_definition") name)
          relTypes r w = (Throw (TypeError msg), w'))
  \/ (nullish (prop model "model_definition") = false
      /\ has_descriptors (prop model "model_definition") name).
Proof.
  destruct (nullish (prop model "model_definition")) eqn:Hn.
  { left. split; [by left|]. by apply scan_target_of_nullish. }
  destruct (described_or_nullish (prop model "model_definition") name)
    as [Hr | Hex]; [right; done|].
  left. split; [right; exact Hex|].
  by apply (for_each_scan_target_throws _ name Hn relTypes None r w).
Qed.

Lemma registry_get_read key w :
  registry_get key w =
    (Normal (registry_read (modelRegistry w) key), emit [EvRegistryLookup key] w).
Proof. reflexivity. Qed.

Ltac run_read :=
  run_with ltac:(apply registry_get_read); rewrite ?modelRegistry_emit.

(** Every outcome of the resolution: a description, a record made of what
    the registry reads, or a [TypeError] from a value that cannot be
    scanned. *)
Lemma resolve_cases w parent through target :
  (exists m,
     (resolve parent through target w).1 = Normal (Failure m)
     /\ failure_descriptions objectToString through target m)
  \/ (exists k1 d1 k2 d2,
        let pm := registry_read (modelRegistry w) parent in
        let tm := registry_read (modelRegistry w) (str (prop d1 "model")) in
        let gm := registry_read (modelRegistry w) (str (prop d2 "model")) in
        truthy pm = true
        /\ last_of (prop pm "model_definition") through = Some (k1, d1)
        /\ truthy tm = true
        /\ last_of (prop tm "model_definition") target = Some (k2, d2)
        /\ truthy gm = true
        /\ (resolve parent through target w).1 =
             Normal (Resolved
               (mkThroughData (VStr k1) tm (prop d1 "key") (VStr k2) gm
                  (prop d2 "key") (VStr (k1 +:+ "-" +:+ k2)))))
  \/ (exists msg key name,
        (resolve parent through target w).1 = Throw (TypeError msg)
        /\ truthy (registry_read (modelRegistry w) key) = true
        /\ (name = through \/ name = target)
        /\ unscannable isObject (registry_read (modelRegistry w) key) name).
Proof.
  unfold failure_descriptions.
  set (pm := registry_read (modelRegistry w) parent).
  destruct (truthy pm) eqn:Hpt.
  2:{ left. exists "Invalid parent model". split; [|auto].
      unfold getThroughRelationshipData. run_read. fold pm. by rewrite Hpt. }
  destruct (scan_through_outcome pm through initial_result
              (emit [EvRegistryLookup parent] (emit [EvRegistryLookup parent] w)))
    as [(Hbad & msg & w' & Hthrow) | (Hpd & Hr1)].
  { right; right. exists msg, parent, through.
    refine (conj _ (conj Hpt (conj (or_introl eq_refl) Hbad))).
    unfold getThroughRelationshipData. run_read. fold pm. rewrite Hpt; cbn [negb].
    run_read. fold pm.
    run_with ltac:(apply lift_readable, truthy_not_nullish, Hpt).
    erewrite bind_throw; [|exact Hthrow]. done. }
  assert (Hhop1 : forall f : ThroughData -> M Resolution,
            (let! result := for_each
                (scan_through isObject (prop pm "model_definition") through)
                relTypes initial_result in f result)
              (emit [EvRegistryLookup parent] (emit [EvRegistryLookup parent] w))
            = f (record_through (last_of (prop pm "model_definition") through)
                   initial_result)
                (emit (EvScan <$> relTypes)
                   (emit [EvRegistryLookup parent]
                      (emit [EvRegistryLookup parent] w)))).
  { intros f. by run_with ltac:(by apply scan_through_relTypes). }
  destruct (last_of (prop pm "model_definition") through) as [[k1 d1]|] eqn:Hl1.
  2:{ left. eexists. split; [|right; left; reflexivity].
      unfold getThroughRelationshipData. run_read. fold pm. rewrite Hpt; cbn [negb].
      run_read. fold pm.
      run_with ltac:(apply lift_readable, truthy_not_nullish, Hpt).
      by rewrite Hhop1. }
  destruct (truthy (prop d1 "model")) eqn:Hm1.
  2:{ left. eexists. split; [|right; left; reflexivity].
      unfold getThroughRelationshipData. run_read. fold pm. rewrite Hpt; cbn [negb].
      run_read. fold pm.
      run_with ltac:(apply lift_readable, truthy_not_nullish, Hpt).
      rewrite Hhop1. cbn [record_through set_through throughModel].
      by rewrite Hm1. }
  set (tm := registry_read (modelRegistry w) (str (prop d1 "model"))).
  destruct (truthy tm) eqn:Htt.
  2:{ left. eexists. split; [|right; right; left; eexists; reflexivity].
      unfold getThroughRelationshipData. run_read. fold pm. rewrite Hpt; cbn [negb].
      run_read. fold pm.
      run_with ltac:(apply lift_readable, truthy_not_nullish, Hpt).
      rewrite Hhop1. cbn [record_through set_through throughModel].
      rewrite Hm1; cbn [negb].
      run_read. fold tm. by rewrite Htt. }
  destruct (scan_target_outcome tm target
              (record_target None
                 (set_throughModel tm
                    (set_through k1 (prop d1 "model") (prop d1 "key")
                       initial_result)))
              (emit [EvRegistryLookup (str (prop d1 "model"))]
                 (emit [EvRegistryLookup (str (prop d1 "model"))]
                    (emit (EvScan <$> relTypes)
                       (emit [EvRegistryLookup parent]
                          (emit [EvRegistryLookup parent] w))))))
    as [(Hbad & msg & w' & Hthrow) | (Htd & Hr2)].
  { right; right. exists msg, (str (prop d1 "model")), target. fold tm.
    refine (conj _ (conj Htt (conj (or_intror eq_refl) Hbad))).
    unfold getThroughRelationshipData. run_read. fold pm. rewrite Hpt; cbn [negb].
    run_read. fold pm.
    run_with ltac:(apply lift_readable, truthy_not_nullish, Hpt).
    rewrite Hhop1. cbn [record_through set_through throughModel].
    rewrite Hm1; cbn [negb].
    run_read. fold tm. rewrite Htt; cbn [negb].
    run_read. fold tm. cbn [set_throughModel throughModel].
    run_with ltac:(apply lift_readable, truthy_not_nullish, Htt).
    erewrite bind_throw; [|exact Hthrow]. done. }
  assert (Hsecond : forall f : ThroughData -> M Resolution,
            (let! result := for_each
                (scan_target isObject (prop tm "model_definition") target)
                relTypes
                (set_throughModel tm
                   (set_through k1 (prop d1 "model") (prop d1 "key")
                      initial_result)) in f result)
              (emit [EvRegistryLookup (str (prop d1 "model"))]
                 (emit [EvRegistryLookup (str (prop d1 "model"))]
                    (emit (EvScan <$> relTypes)
                       (emit [EvRegistryLookup parent]
                          (emit [EvRegistryLookup parent] w)))))
            = f (record_target (last_of (prop tm "model_definition") target)
                   (set_throughModel tm
                      (set_through k1 (prop d1 "model") (prop d1 "key")
                         initial_result)))
                (emit (EvScan <$> relTypes)
                   (emit [EvRegistryLookup (str (prop d1 "model"))]
                      (emit [EvRegistryLookup (str (prop d1 "model"))]
                         (emit (EvScan <$> relTypes)
                            (emit [EvRegistryLookup parent]
                               (emit [EvRegistryLookup parent] w))))))).
  { intros f.
    match goal with
    | |- context [bind (for_each _ _ ?r) _ _] =>
        change r with (record_target None r)
    end.
    by run_with ltac:(by apply scan_target_relTypes). }
  assert (Hgo :
    (resolve parent through target w).1 =
      ((fun result : ThroughData =>
          if negb (truthy (targetModel result)) then
            ret (Failure ("Invalid target relation [" +:+ target +:+ "]"))
          else
            let! target0 := registry_get (str (targetModel result)) in
            if negb (truthy target0) then
              ret (Failure ("Invalid target model [" +:+
                            str (targetModel result) +:+ "]"))
            else
              let! target1 := registry_get (str (targetModel result)) in
              ret (Resolved
                     (set_relationshipCombination
                        (VStr (str (throughRelationshipType
                                      (set_targetModel target1 result))
                               +:+ "-" +:+
                               str (targetRelationshipType
                                      (set_targetModel target1 result))))
                        (set_targetModel target1 result))))
         (record_target (last_of (prop tm "model_definition") target)
            (set_throughModel tm
               (set_through k1 (prop d1 "model") (prop d1 "key")
                  initial_result)))
         (emit (EvScan <$> relTypes)
            (emit [EvRegistryLookup (str (prop d1 "model"))]
               (emit [EvRegistryLookup (str (prop d1 "model"))]
                  (emit (EvScan <$> relTypes)
                     (emit [EvRegistryLookup parent]
                        (emit [EvRegistryLookup parent] w))))))).1).
  { unfold getThroughRelationshipData. run_read. fold pm. rewrite Hpt; cbn [negb].
    run_read. fold pm.
    run_with ltac:(apply lift_readable, truthy_not_nullish, Hpt).
    rewrite Hhop1. cbn [record_through set_through throughModel].
    rewrite Hm1; cbn [negb].
    run_read. fold tm. rewrite Htt; cbn [negb].
    run_read. fold tm. cbn [set_throughModel throughModel].
    run_with ltac:(apply lift_readable, truthy_not_nullish, Htt).
    by rewrite Hsecond. }
  rewrite Hgo. clear Hgo. cbv beta.
  destruct (last_of (prop tm "model_definition") target) as [[k2 d2]|] eqn:Hl2.
  2:{ left. eexists. split; [|do 3 right; left; reflexivity]. done. }
  cbn [record_target set_target targetModel].
  destruct (truthy (prop d2 "model")) eqn:Hm2; cbn [negb].
  2:{ left. eexists. split; [|do 3 right; left; reflexivity]. done. }
  set (gm := registry_read (modelRegistry w) (str (prop d2 "model"))).
  run_read. fold gm.
  destruct (truthy gm) eqn:Hgt; cbn [negb].
  2:{ left. eexists. split; [|do 4 right; eexists; reflexivity]. done. }
  run_read. fold gm.
  right; left. exists k1, d1, k2, d2. cbv zeta. fold pm tm gm.
  repeat (split; [done|]). reflexivity.
Qed.

(** In a registry whose prototype has not been replaced, every record that
    the resolution returns is made of what the registry reads: each kind is
    one of the three scanned kinds and the last one to declare the relation,
    the two models are what the registry reads (an own entry, or else a
    member of [Object.prototype]) under the names in those declarations, and
    the combination joins the two kinds. *)
Theorem resolved_record_is_made_of_entries w parent through target r :
  prototype (modelRegistry w) = None ->
  (resolve parent through target w).1 = Normal (Resolved r) ->
  exists k1 d1 k2 d2,
    k1 ∈ relTypes /\ k2 ∈ relTypes
    /\ last_of (prop (registry_read (modelRegistry w) parent) "model_definition")
         through = Some (k1, d1)
    /\ throughModel r = registry_read (modelRegistry w) (str (prop d1 "model"))
    /\ last_of (prop (throughModel r) "model_definition") target = Some (k2, d2)
    /\ targetModel r = registry_read (modelRegistry w) (str (prop d2 "model"))
    /\ r = mkThroughData (VStr k1) (throughModel r) (prop d1 "key")
             (VStr k2) (targetModel r) (prop d2 "key")
             (VStr (k1 +:+ "-" +:+ k2)).
Proof.
  intros _ Hres.
  destruct (resolve_cases w parent through target)
    as [(m & Hm & _) | [(k1 & d1 & k2 & d2 & _ & Hl1 & _ & Hl2 & _ & Hr)
                       | (msg & ? & ? & Hthrow & _)]];
    rewrite Hres in *; try discriminate.
  injection Hr as ->. simpl.
  exists k1, d1, k2, d2.
  destruct (last_declared_kind _ _ _ _ Hl1) as [Hk1 _].
  destruct (last_declared_kind _ _ _ _ Hl2) as [Hk2 _].
  repeat (split; [done|]). done.
Qed.

(** A parent name that has no entry in the registry but is a member of
    [Object.prototype] ([constructor], [toString], [__proto__], ...), in a
    registry whose prototype has not been replaced, is not refused: the
    lookup finds the inherited member, the second lookup finds it again,
    and the first scan throws a [TypeError], as that member has no
    [model_definition]. *)
Theorem inherited_parent_throws w parent through target :
  modelRegistry w !! parent = None ->
  prototype (modelRegistry w) = None ->
  object_prototype_member parent <> VUndefined ->
  exists msg,
    resolve parent through target w =
      (Throw (TypeError msg),
       emit [EvRegistryLookup parent; EvRegistryLookup parent;
             EvScan BELONGS_TO] w).
Proof.
  intros Hnone Hproto Hmember.
  assert (Hread : registry_read (modelRegistry w) parent
                  = object_prototype_member parent).
  { unfold registry_read, inherited. by rewrite Hnone, Hproto. }
  assert (Hb : exists path, object_prototype_member parent = VBuiltin path).
  { unfold object_prototype_member in *.
    repeat match goal with
           | |- context [if ?b then _ else _] => destruct b
           end; eauto; done. }
  destruct Hb as [path Hb].
  unfold getThroughRelationshipData.
  run_read. rewrite Hread, Hb. cbn [truthy negb].
  run_read. rewrite Hread, Hb.
  eexists. unfold relTypes, bind, lift, scan_through, log; simpl.
  rewrite !emit_emit. reflexivity.
Qed.

(** In a registry of models, a description that the resolution returns is
    one of the five: invalid parent model, invalid through relation (with
    the name asked), invalid through model, invalid target relation (with
    the name asked), invalid target model. *)
Theorem resolution_describes_five_failures w parent through target m :
  registry_of_models isObject w ->
  (resolve parent through target w).1 = Normal (Failure m) ->
  failure_descriptions objectToString through target m.
Proof.
  intros _ Hres.
  destruct (resolve_cases w parent through target)
    as [(m' & Hm & Hd) | [(k1 & d1 & k2 & d2 & _ & _ & _ & _ & _ & Hr)
                        | (msg & ? & ? & Hthrow & _)]];
    rewrite Hres in *; try discriminate.
  by injection Hm as ->.
Qed.



(** [registerModel], whether it lets the candidate in or throws, keeps the
    registry a registry of models: every entry passed the tests and is kept
    under its own name. *)
Theorem registerModel_keeps_registry_of_models model w :
  registry_of_models isObject w ->
  registry_of_models isObject (register model w).2.
Proof.
  intros Hinv. destruct (accepted model) eqn:Ha.
  - intros key m.
    intros [[-> ->] | Hold]%registerModel_lookup_Some; [|by apply Hinv|done].
    split; [done|].
    unfold accepts in Ha. repeat (apply andb_prop in Ha as [Ha _]).
    destruct model; try discriminate. reflexivity.
  - by rewrite registerModel_rejected_world.
Qed.

(** *** More on the batch operations *)

(** Called with something that is not an array (a single instance, say),
    [saveAll] and [deleteAll] resolve without doing anything, whatever the
    transaction is. *)
Theorem batch_of_non_array_does_nothing modelInstances transaction w :
  (forall elems, modelInstances <> VArr elems) ->
  saveAll isObject persists modelInstances transaction w = (Normal tt, w)
  /\ deleteAll isObject persists modelInstances transaction w = (Normal tt, w).
Proof.
  intros Hna. unfold saveAll, deleteAll.
  destruct modelInstances; try done. by destruct (Hna elems).
Qed.

(** With a list that holds no object (numbers, strings, [null], ...) and a
    missing or falsy transaction, [saveAll] and [deleteAll] open one
    transaction, skip every entry and commit it. *)
Theorem batch_without_objects_commits elems transaction w :
  existsb isObject elems = false ->
  truthy transaction = false ->
  let t := next_handle w in
  let committed :=
    mkWorld (modelRegistry w) (S t) (trace w ++ [EvTransaction t; EvCommit t]) in
  saveAll isObject persists (VArr elems) transaction w = (Normal tt, committed)
  /\ deleteAll isObject persists (VArr elems) transaction w = (Normal tt, committed).
Proof.
  intros Hobj Ht t committed. subst t committed.
  rewrite saveAll_without_handle, deleteAll_without_handle by done.
  cbn zeta. by rewrite Hobj.
Qed.

(** With a handle of the caller, [deleteAll] skips the entries that are not
    objects and throws the [ReferenceError] of [isModel] at the first one
    that is; the world is as before: [delete] is run on no entry, and
    nothing is opened or committed. *)
Theorem deleteAll_deletes_no_instance elems transaction w :
  truthy transaction = true ->
  deleteAll isObject persists (VArr elems) transaction w =
    (if existsb isObject elems then Throw (ReferenceError "isModel")
     else Normal tt, w).
Proof.
  intros Ht. rewrite deleteAll_with_handle by done. apply _deleteAll_run.
Qed.

Lemma batch_worlds (run : JSVal -> JSVal -> M unit) :
  (forall elems transaction w, truthy transaction = true ->
     run (VArr elems) transaction w =
       (if existsb isObject elems then Throw (ReferenceError "isModel")
        else Normal tt, w)) ->
  (forall elems transaction w, truthy transaction = false ->
     run (VArr elems) transaction w =
       let t := next_handle w in
       let w' := mkWorld (modelRegistry w) (S t) (trace w) in
       if existsb isObject elems then
         (Throw (ReferenceError "isModel"), emit [EvTransaction t] w')
       else (Normal tt, emit [EvTransaction t; EvCommit t] w')) ->
  (forall v transaction w, (forall elems, v <> VArr elems) ->
     run v transaction w = (Normal tt, w)) ->
  forall modelInstances transaction w,
    let t := next_handle w in
    (run modelInstances transaction w).2 = w
    \/ (run modelInstances transaction w).2 =
         mkWorld (modelRegistry w) (S t) (trace w ++ [EvTransaction t])
    \/ (run modelInstances transaction w).2 =
         mkWorld (modelRegistry w) (S t) (trace w ++ [EvTransaction t; EvCommit t]).
Proof.
  intros Hwith Hwithout Hother modelInstances transaction w t.
  destruct modelInstances;
    try (left; rewrite Hother; done).
  destruct (truthy transaction) eqn:Ht.
  - left. rewrite Hwith by done. by destruct (existsb isObject elems).
  - right. rewrite Hwithout by done. cbn zeta.
    destruct (existsb isObject elems); [left | right]; reflexivity.
Qed.

(** Whatever they are called with, [saveAll] and [deleteAll] leave the
    world as it was, or with one transaction opened, or with one transaction
    opened and committed: they run no [save] and no [delete], commit no
    transaction but their own and leave the registry alone. *)
Theorem batch_effects modelInstances transaction w :
  let t := next_handle w in
  let opened := mkWorld (modelRegistry w) (S t) (trace w ++ [EvTransaction t]) in
  let committed :=
    mkWorld (modelRegistry w) (S t) (trace w ++ [EvTransaction t; EvCommit t]) in
  ((saveAll isObject persists modelInstances transaction w).2 = w
   \/ (saveAll isObject persists modelInstances transaction w).2 = opened
   \/ (saveAll isObject persists modelInstances transaction w).2 = committed)
  /\ ((deleteAll isObject persists modelInstances transaction w).2 = w
      \/ (deleteAll isObject persists modelInstances transaction w).2 = opened
      \/ (deleteAll isObject persists modelInstances transaction w).2 = committed).
Proof.
  intros t opened committed. subst t opened committed. split.
  - apply (batch_worlds (saveAll isObject persists)).
    + intros. rewrite saveAll_with_handle by done. apply _saveAll_run.
    + intros. by apply saveAll_without_handle.
    + intros v tr w0 Hna. unfold saveAll. destruct v; try done.
      by destruct (Hna elems).
  - apply (batch_worlds (deleteAll isObject persists)).
    + intros. rewrite deleteAll_with_handle by done. apply _deleteAll_run.
    + intros. by apply deleteAll_without_handle.
    + intros v tr w0 Hna. unfold deleteAll. destruct v; try done.
      by destruct (Hna elems).
Qed.

(** *** More on the registration *)


(** Two models of different names, neither of them named [__proto__], can
    be registered in either order in a registry whose prototype has not
    been replaced: the registry is the same. *)
Theorem registerModel_commutes model1 model2 w :
  accepted model1 = true ->
  accepted model2 = true ->
  prop model1 "name" <> prop model2 "name" ->
  prototype (modelRegistry w) = None ->
  prop model1 "name" <> VStr "__proto__" ->
  prop model2 "name" <> VStr "__proto__" ->
  modelRegistry (register model2 (register model1 w).2).2 =
    modelRegistry (register model1 (register model2 w).2).2.
Proof.
  intros Ha1 Ha2 Hne Hproto Hp1 Hp2.
  assert (Hn1 : str (prop model1 "name") <> "__proto__").
  { unfold accepts in Ha1. repeat (apply andb_prop in Ha1 as [Ha1 _]).
    destruct model1; try discriminate.
    unfold prop in *; simpl in *. congruence. }
  assert (Hn2 : str (prop model2 "name") <> "__proto__").
  { unfold accepts in Ha2. repeat (apply andb_prop in Ha2 as [Ha2 _]).
    destruct model2; try discriminate.
    unfold prop in *; simpl in *. congruence. }
  rewrite (registerModel_accepted model1 w) by (done || by apply read_only_original).
  rewrite (registerModel_accepted model2 w) by (done || by apply read_only_original).
  rewrite !registerModel_accepted
    by (done || (apply read_only_original; simpl; by rewrite assign_insert)).
  simpl. apply assign_commute.
  unfold accepts in Ha1, Ha2.
  repeat (apply andb_prop in Ha1 as [Ha1 _]).
  repeat (apply andb_prop in Ha2 as [Ha2 _]).
  destruct model1, model2; try discriminate.
  unfold prop in *; simpl in *. intros Heq. apply Hne. by rewrite Heq.
Qed.

End StoreProperties.

(** *** The hook on the responses *)

Section HookProperties.

Variable isObject : JSVal -> bool.
Variable call : JSVal -> JSVal -> Completion JSVal.
Hypothesis isObject_nullish : forall v, nullish v = true -> isObject v = false.

(** Without a transform, that is when the query context is no object (none
    was given, say) or its [ormtransform] is not a function, the response
    goes through unchanged and the transform is not called. *)
Theorem response_without_transform_passes result queryContext :
  typeof_function (prop queryContext "ormtransform") = false ->
  processResponse isObject call result queryContext = Normal result.
Proof.
  intros Hf. unfold processResponse.
  destruct (isObject queryContext) eqn:Hobj; [|done].
  rewrite get_prop_readable.
  - simpl. by rewrite Hf.
  - destruct (nullish queryContext) eqn:Hn; [|done].
    by rewrite isObject_nullish in Hobj.
Qed.

Lemma first_of_rows row rows : get_prop (VArr (row :: rows)) "0" = Normal row.
Proof. reflexivity. Qed.

(** With a transform that returns the rows [rows]: in single-object mode the
    response is the first row, or [null] when there is none; otherwise it is
    the array of the rows. *)
Theorem response_with_transform result queryContext rows :
  isObject queryContext = true ->
  typeof_function (prop queryContext "ormtransform") = true ->
  call (prop queryContext "ormtransform") result = Normal (VArr rows) ->
  processResponse isObject call result queryContext =
    if truthy (prop queryContext "returnSingleObject") then
      Normal (match rows with
              | [] => VNull
              | row :: _ => row
              end)
    else Normal (VArr rows).
Proof.
  intros Hobj Hf Hcall. unfold processResponse. rewrite Hobj.
  assert (Hn : nullish queryContext = false).
  { destruct (nullish queryContext) eqn:Hn; [|done].
    by rewrite isObject_nullish in Hobj. }
  rewrite !(get_prop_readable _ _ Hn). simpl. rewrite Hf, Hcall. simpl.
  destruct (truthy (prop queryContext "returnSingleObject")); [|done].
  destruct rows as [|row rows]; [done|].
  change (get_prop (VArr (row :: rows)) "length")
    with (Normal (VNum (Z.of_nat (S (length rows))))).
  simpl and_then. cbn [truthy].
  destruct (Z.eqb_spec (Z.of_nat (S (length rows))) 0) as [Heq|_]; [lia|].
  apply first_of_rows.
Qed.

End HookProperties.

(** ** The properties on concrete registries *)

Lemma isObject_typeof_nullish (v : JSVal) :
  nullish v = true -> isObject_typeof v = false.
Proof. by destruct v. Qed.

Lemma unregistered_parent_witness :
  modelRegistry Scenario.shop !! "Customer" = None
  /\ getThroughRelationshipData isObject_typeof Scenario.describe
       "Customer" "items" "supplier" Scenario.shop
     = (Normal (Failure "Invalid parent model"),
        emit [EvRegistryLookup "Customer"] Scenario.shop).
Proof.
  split; [vm_compute; reflexivity|].
  apply (unregistered_parent_fails_at_once isObject_typeof Scenario.describe);
    reflexivity.
Defined.

(** C6, as it is stated, fails on a parent name that the registry object
    inherits: [constructor] has no entry in the registry of the shop, yet
    the lookup finds the inherited [Object], which passes for a model, and
    the resolution throws a [TypeError] at the first scan instead of
    returning "Invalid parent model".  It fails too once a model class
    named [__proto__] has been registered, as the assignment makes that
    class the prototype of the registry: the parent [name] has no entry and
    is no member of [Object.prototype], yet the lookup finds the name of
    that class. *)
Lemma inherited_parent_is_not_refused :
  modelRegistry Scenario.shop !! "constructor" = None
  /\ getThroughRelationshipData isObject_typeof Scenario.describe
       "constructor" "items" "supplier" Scenario.shop
     = (Throw (TypeError "Cannot read property 'belongsTo'"),
        emit [EvRegistryLookup "constructor"; EvRegistryLookup "constructor";
              EvScan "belongsTo"] Scenario.shop)
  /\ modelRegistry Cases.shadowed !! "name" = None
  /\ object_prototype_member "name" = VUndefined
  /\ getThroughRelationshipData isObject_typeof Scenario.describe
       "name" "items" "supplier" Cases.shadowed
     = (Throw (TypeError "Cannot read property 'belongsTo'"),
        emit [EvRegistryLookup "name"; EvRegistryLookup "name";
              EvScan "belongsTo"] Cases.shadowed).
Proof. repeat split. Qed.

Lemma undeclared_through_relation_witness :
  registered isObject_typeof Scenario.bank "Account" Scenario.Account
  /\ relation_under isObject_typeof (prop Scenario.Account "model_definition")
       HAS_MANY_THROUGH "tags" <> None
  /\ (getThroughRelationshipData isObject_typeof Scenario.describe
        "Account" "tags" "founder" Scenario.bank).1
     = Normal (Failure "Invalid through relation [tags]").
Proof.
  assert (Hreg : registered isObject_typeof Scenario.bank "Account" Scenario.Account)
    by (split; vm_compute; reflexivity).
  split; [exact Hreg|]. split; [vm_compute; discriminate|].
  apply (undeclared_through_relation isObject_typeof Scenario.describe
           isObject_typeof_nullish Scenario.bank "Account" Scenario.Account
           "tags" "founder" Hreg).
  intros k Hk. apply elem_of_relTypes in Hk as [-> | [-> | ->]]; reflexivity.
Defined.







(** C4, as it is stated, fails: on a fresh engine [saveAll([])] and
    [deleteAll([])] each open the transaction 0 and commit it. *)
Lemma empty_batch_is_not_a_no_op :
  trace (saveAll isObject_typeof Scenario.always (VArr []) VUndefined
           Scenario.empty_world).2 = [EvTransaction 0; EvCommit 0]
  /\ trace (deleteAll isObject_typeof Scenario.always (VArr []) VUndefined
              Scenario.empty_world).2 = [EvTransaction 0; EvCommit 0].
Proof. split; reflexivity. Qed.

Lemma saveAll_of_instances_never_commits_witness :
  saveAll isObject_typeof Scenario.always
    (VArr [Scenario.order1; Scenario.item1]) VUndefined Scenario.empty_world
  = (Throw (ReferenceError "isModel"), mkWorld ∅ 1 [EvTransaction 0]).
Proof.
  apply (saveAll_of_instances_never_commits isObject_typeof Scenario.always
           [Scenario.order1; Scenario.item1] Scenario.empty_world).
  reflexivity.
Defined.

Lemma saveAll_saves_no_instance_witness :
  saveAll isObject_typeof Scenario.always
    (VArr [VNum 1; Scenario.order1; VStr "x"; Scenario.item1]) (VHandle 7)
    Scenario.empty_world
  = (Throw (ReferenceError "isModel"), Scenario.empty_world).
Proof.
  apply (saveAll_saves_no_instance isObject_typeof Scenario.always
           [VNum 1; Scenario.order1; VStr "x"; Scenario.item1] (VHandle 7)
           Scenario.empty_world).
  reflexivity.
Defined.

Lemma falsy_transaction_witness :
  Forall (fun transaction =>
            saveAll isObject_typeof Scenario.always (VArr [Scenario.order1])
              transaction Scenario.empty_world
            = (Throw (ReferenceError "isModel"), mkWorld ∅ 1 [EvTransaction 0])
            /\ deleteAll isObject_typeof Scenario.always (VArr [Scenario.order1])
                 transaction Scenario.empty_world
               = (Throw (ReferenceError "isModel"), mkWorld ∅ 1 [EvTransaction 0]))
    [VUndefined; VNull; VBool false; VNum 0; VStr ""].
Proof.
  repeat (apply List.Forall_cons;
          [ cbv beta;
            match goal with
            | |- saveAll _ _ _ ?t _ = _ /\ _ =>
                pose proof (falsy_transaction_opens_but_never_commits
                              isObject_typeof Scenario.always [Scenario.order1]
                              t Scenario.empty_world eq_refl eq_refl)
                  as (_ & Hs & _ & Hd);
                exact (conj Hs Hd)
            end |]).
  apply List.Forall_nil.
Defined.

(** ** The other properties on concrete registries *)

Lemma shop_registry :
  modelRegistry Scenario.shop =
    <["Supplier" := Scenario.Supplier]>
      (<["Item" := Scenario.Item]> (<["Order" := Scenario.Order]> ∅)).
Proof. reflexivity. Qed.

Lemma workshop_registry :
  modelRegistry Cases.workshop =
    <["Part" := Cases.Part]> (<["Kit" := Cases.Kit]> ∅).
Proof. reflexivity. Qed.

Lemma shop_of_models : registry_of_models isObject_typeof Scenario.shop.
Proof.
  intros key model. rewrite shop_registry, !registry_lookup_insert.
  repeat case_decide; subst; try (intros [= <-]; split; reflexivity);
    try done.
Qed.

Lemma workshop_of_models : registry_of_models isObject_typeof Cases.workshop.
Proof.
  intros key model. rewrite workshop_registry, !registry_lookup_insert.
  repeat case_decide; subst; try (intros [= <-]; split; reflexivity);
    try done.
Qed.

Lemma kit_registered :
  registered isObject_typeof Cases.workshop "Kit" Cases.Kit.
Proof. split; reflexivity. Qed.

Lemma part_registered :
  registered isObject_typeof Cases.workshop "Part" Cases.Part.
Proof. split; reflexivity. Qed.

Ltac by_kind :=
  let k := fresh "k" in
  let d := fresh "d" in
  let Hk := fresh "Hk" in
  let Hd := fresh "Hd" in
  first
    [ intros k d Hk Hd;
      apply elem_of_relTypes in Hk as [-> | [-> | ->]];
      vm_compute in Hd; by simplify_eq
    | intros k Hk;
      apply elem_of_relTypes in Hk as [-> | [-> | ->]]; reflexivity ].

Lemma declaration_without_model_name_witness :
  relation_under isObject_typeof (prop Cases.Kit "model_definition") HAS_ONE "label"
    = Some (VObj [("key", VStr "kit_id")])
  /\ (getThroughRelationshipData isObject_typeof Scenario.describe
        "Kit" "label" "maker" Cases.workshop).1
     = Normal (Failure "Invalid through relation [label]").
Proof.
  split; [reflexivity|].
  apply (declaration_without_model_name isObject_typeof Scenario.describe
           isObject_typeof_nullish Cases.workshop "Kit" Cases.Kit "label" "maker"
           HAS_ONE (VObj [("key", VStr "kit_id")]) kit_registered);
    [by_kind | reflexivity | reflexivity].
Defined.

Lemma through_model_not_registered_witness :
  (getThroughRelationshipData isObject_typeof Scenario.describe
     "Kit" "extras" "maker" Cases.workshop).1
  = Normal (Failure "Invalid through model [Extra]").
Proof.
  rewrite (through_model_not_registered isObject_typeof Scenario.describe
             isObject_typeof_nullish Cases.workshop "Kit" Cases.Kit "extras" "maker"
             HAS_MANY (Scenario.descriptor "Extra" "kit_id") "Extra"
             kit_registered);
    [reflexivity | by_kind | reflexivity | reflexivity | discriminate
    | reflexivity | reflexivity | reflexivity].
Defined.


Lemma target_model_not_registered_witness :
  (getThroughRelationshipData isObject_typeof Scenario.describe
     "Kit" "parts" "maker" Cases.workshop).1
  = Normal (Failure "Invalid target model [Maker]").
Proof.
  apply (target_model_not_registered isObject_typeof Scenario.describe
           isObject_typeof_nullish Cases.workshop "Kit" Cases.Kit "parts" "maker"
           HAS_MANY (Scenario.descriptor "Part" "kit_id") "Part" Cases.Part
           BELONGS_TO (Scenario.descriptor "Maker" "maker_id") "Maker"
           kit_registered);
    [by_kind | reflexivity | reflexivity | discriminate | exact part_registered
    | by_kind | reflexivity | reflexivity | discriminate | reflexivity
    | reflexivity | reflexivity].
Defined.

Lemma null_descriptor_throws_witness :
  exists msg,
    (getThroughRelationshipData isObject_typeof Scenario.describe
       "Kit" "broken" "maker" Cases.workshop).1 = Throw (TypeError msg).
Proof.
  apply (null_descriptor_throws isObject_typeof Scenario.describe
           isObject_typeof_nullish Cases.workshop "Kit" Cases.Kit "broken" "maker"
           HAS_ONE VNull kit_registered);
    [apply elem_of_relTypes; auto | reflexivity | reflexivity].
Defined.

Lemma resolved_record_witness :
  exists k1 d1 k2 d2,
    k1 ∈ relTypes /\ k2 ∈ relTypes
    /\ last_declared isObject_typeof
         (prop (registry_read (modelRegistry Scenario.shop) "Order")
            "model_definition") "items" = Some (k1, d1)
    /\ Scenario.Item =
         registry_read (modelRegistry Scenario.shop)
           (to_string Scenario.describe (prop d1 "model"))
    /\ last_declared isObject_typeof (prop Scenario.Item "model_definition")
         "supplier" = Some (k2, d2)
    /\ Scenario.Supplier =
         registry_read (modelRegistry Scenario.shop)
           (to_string Scenario.describe (prop d2 "model"))
    /\ k1 = "hasMany" /\ k2 = "belongsTo".
Proof.
  destruct (resolved_record_is_made_of_entries isObject_typeof Scenario.describe
              isObject_typeof_nullish Scenario.shop "Order" "items" "supplier"
              (mkThroughData (VStr "hasMany") Scenario.Item (VStr "order_id")
                 (VStr "belongsTo") Scenario.Supplier (VStr "supplier_id")
                 (VStr "hasMany-belongsTo"))
              eq_refl eq_refl)
    as (k1 & d1 & k2 & d2 & Hk1 & Hk2 & Hl1 & Ht & Hl2 & Hg & Hr).
  exists k1, d1, k2, d2. simpl in Ht, Hl2, Hg.
  injection Hr as <- _ <- _ _.
  repeat (split; [assumption|]). split; reflexivity.
Defined.

Lemma inherited_parent_throws_witness :
  modelRegistry Scenario.shop !! "toString" = None
  /\ exists msg,
       getThroughRelationshipData isObject_typeof Scenario.describe
         "toString" "items" "supplier" Scenario.shop
       = (Throw (TypeError msg),
          emit [EvRegistryLookup "toString"; EvRegistryLookup "toString";
                EvScan BELONGS_TO] Scenario.shop).
Proof.
  split; [reflexivity|].
  apply (inherited_parent_throws isObject_typeof Scenario.describe
           Scenario.shop "toString" "items" "supplier");
    [reflexivity | reflexivity | discriminate].
Defined.

Lemma resolution_describes_witness :
  failure_descriptions Scenario.describe "items" "supplier" "Invalid parent model".
Proof.
  apply (resolution_describes_five_failures isObject_typeof Scenario.describe
           isObject_typeof_nullish Scenario.shop "Customer" "items" "supplier"
           "Invalid parent model" shop_of_models).
  reflexivity.
Defined.


Lemma registerModel_keeps_registry_witness :
  registry_of_models isObject_typeof
    (registerModel isObject_typeof Scenario.describe Scenario.Person
       Scenario.shop).2
  /\ registry_of_models isObject_typeof
       (registerModel isObject_typeof Scenario.describe Scenario.Tableless
          Scenario.shop).2.
Proof.
  split;
    apply (registerModel_keeps_registry_of_models isObject_typeof
             Scenario.describe isObject_typeof_nullish);
    exact shop_of_models.
Defined.

Lemma batch_of_non_array_witness :
  saveAll isObject_typeof Scenario.always Scenario.order1 VUndefined
    Scenario.empty_world = (Normal tt, Scenario.empty_world)
  /\ deleteAll isObject_typeof Scenario.always Scenario.order1 (VHandle 7)
       Scenario.empty_world = (Normal tt, Scenario.empty_world).
Proof.
  split.
  - apply (batch_of_non_array_does_nothing isObject_typeof Scenario.always
             Scenario.order1 VUndefined Scenario.empty_world).
    discriminate.
  - apply (batch_of_non_array_does_nothing isObject_typeof Scenario.always
             Scenario.order1 (VHandle 7) Scenario.empty_world).
    discriminate.
Defined.

Lemma batch_without_objects_witness :
  saveAll isObject_typeof Scenario.always (VArr [VNum 1; VStr "a"; VNull])
    VUndefined Scenario.empty_world
  = (Normal tt, mkWorld ∅ 1 [EvTransaction 0; EvCommit 0])
  /\ deleteAll isObject_typeof Scenario.always (VArr [VNum 1; VStr "a"; VNull])
       VUndefined Scenario.empty_world
     = (Normal tt, mkWorld ∅ 1 [EvTransaction 0; EvCommit 0]).
Proof.
  apply (batch_without_objects_commits isObject_typeof Scenario.always
           [VNum 1; VStr "a"; VNull] VUndefined Scenario.empty_world);
    reflexivity.
Defined.

Lemma deleteAll_deletes_no_instance_witness :
  deleteAll isObject_typeof Scenario.always
    (VArr [VNum 1; Scenario.order1; Scenario.item1]) (VHandle 7)
    Scenario.empty_world
  = (Throw (ReferenceError "isModel"), Scenario.empty_world).
Proof.
  apply (deleteAll_deletes_no_instance isObject_typeof Scenario.always
           [VNum 1; Scenario.order1; Scenario.item1] (VHandle 7)
           Scenario.empty_world).
  reflexivity.
Defined.

Lemma response_without_transform_witness :
  processResponse isObject_typeof Cases.wrap_rows (VArr [VNum 1; VNum 2]) VUndefined
  = Normal (VArr [VNum 1; VNum 2])
  /\ processResponse isObject_typeof Cases.wrap_rows (VArr [VNum 1; VNum 2])
       (VObj [("ormtransform", VStr "none")])
     = Normal (VArr [VNum 1; VNum 2]).
Proof.
  split;
    apply (response_without_transform_passes isObject_typeof Cases.wrap_rows
             isObject_typeof_nullish);
    reflexivity.
Defined.

Lemma response_with_transform_witness :
  processResponse isObject_typeof Cases.wrap_rows (VArr [VNum 1; VNum 2])
    (Cases.context true)
  = Normal (VInst 0 Scenario.Order)
  /\ processResponse isObject_typeof Cases.wrap_rows (VArr [])
       (Cases.context true)
     = Normal VNull
  /\ processResponse isObject_typeof Cases.wrap_rows (VArr [VNum 1; VNum 2])
       (Cases.context false)
     = Normal (VArr [VInst 0 Scenario.Order; VInst 1 Scenario.Order]).
Proof.
  split; [|split].
  - apply (response_with_transform isObject_typeof Cases.wrap_rows
             isObject_typeof_nullish (VArr [VNum 1; VNum 2]) (Cases.context true)
             [VInst 0 Scenario.Order; VInst 1 Scenario.Order]);
      reflexivity.
  - apply (response_with_transform isObject_typeof Cases.wrap_rows
             isObject_typeof_nullish (VArr []) (Cases.context true) []);
      reflexivity.
  - apply (response_with_transform isObject_typeof Cases.wrap_rows
             isObject_typeof_nullish (VArr [VNum 1; VNum 2]) (Cases.context false)
             [VInst 0 Scenario.Order; VInst 1 Scenario.Order]);
      reflexivity.
Defined.


Lemma registerModel_commutes_witness :
  modelRegistry
    (registerModel isObject_typeof Scenario.describe Scenario.Item
       (registerModel isObject_typeof Scenario.describe Scenario.Order
          Scenario.empty_world).2).2
  = modelRegistry
      (registerModel isObject_typeof Scenario.describe Scenario.Order
         (registerModel isObject_typeof Scenario.describe Scenario.Item
            Scenario.empty_world).2).2.
Proof.
  apply (registerModel_commutes isObject_typeof Scenario.describe
           isObject_typeof_nullish Scenario.Order Scenario.Item
           Scenario.empty_world);
    [reflexivity | reflexivity | discriminate | reflexivity | discriminate
    | discriminate].
Defined.

(** Without these conditions the order matters: the class named
    [__proto__], registered first, becomes the prototype of the registry,
    and the assignment of the class named [length] is then refused, as the
    prototype holds its [length] read-only; registered in the other order,
    the class named [length] gets its entry. *)
Lemma registration_order_matters :
  accepts isObject_typeof Cases.Proto = true
  /\ accepts isObject_typeof Cases.Length = true
  /\ registerModel isObject_typeof Scenario.describe Cases.Length
       (registerModel isObject_typeof Scenario.describe Cases.Proto
          Scenario.empty_world).2
     = (Throw (TypeError "Cannot assign to read only property 'length'"),
        mkWorld (mkRegistry ∅ (Some Cases.Proto)) 0 [])
  /\ modelRegistry
       (registerModel isObject_typeof Scenario.describe Cases.Proto
          (registerModel isObject_typeof Scenario.describe Cases.Length
             Scenario.empty_world).2).2
     = mkRegistry (<["length" := Cases.Length]> ∅) (Some Cases.Proto).
Proof. repeat split. Qed.
